(** * vrchive-explorer: the extraction engine of [main.go]

    A shallow embedding of the search engine of [main.go] (document loader,
    embed locator, record extractor, match filter and search orchestrator)
    together with the properties of its specification.

    Modelling choices.
    - A Go [string] is a byte string ([String.string]).
    - A parsed [*html.Node] is a finite tree; the [FirstChild]/[NextSibling]
      chain of a node is the list of its children, so a loop
      [for c := n.FirstChild; c != nil; c = c.NextSibling] and a
      [range n.ChildNodes()] both iterate over [Children n] from left to right.
      A [*html.Node] that may be [nil] is an [option Node].
    - A run-time panic (nil dereference, index out of range) is an explicit
      result of the functions that can raise it.
    - The package-level variables [searchText] and [dataFolder], the output
      channel and the writes of the user-interface goroutine to [searchText]
      are fields of an explicit [State], threaded through the scanning code.
    - [log.Printf], [log.Println] and [fmt.Println] only write to the log or
      to the terminal and are left out.
    - [strings.ToLower], [path.Join], [html.Parse] and the [os] calls are
      library code: [ToLower] is a parameter of the development, the others
      are the fields of a [World]. *)

From Stdlib Require Import String Ascii List Bool Arith Lia.
Import ListNotations.
Open Scope string_scope.
Open Scope list_scope.

(** ** Data model *)

(** [html.NodeType] *)
Inductive NodeType : Type :=
| ErrorNode | TextNode | DocumentNode | ElementNode
| CommentNode | DoctypeNode | RawNode.

Definition NodeType_eqb (a b : NodeType) : bool :=
  match a, b with
  | ErrorNode, ErrorNode | TextNode, TextNode | DocumentNode, DocumentNode
  | ElementNode, ElementNode | CommentNode, CommentNode
  | DoctypeNode, DoctypeNode | RawNode, RawNode => true
  | _, _ => false
  end.

(** [html.Attribute] *)
Record Attribute : Type := mkAttr {
  Namespace : string;
  Key : string;
  Val : string
}.

(** [html.Node]: type, data (tag name of an element, payload of a text node),
    attributes in source order, children in document order. *)
#[warnings="-register-all"]
Inductive Node : Type :=
| mkNode (Type_ : NodeType) (Data : string) (Attr : list Attribute)
         (Children : list Node).

Definition Type_ (n : Node) : NodeType := let (t, _, _, _) := n in t.
Definition Data (n : Node) : string := let (_, d, _, _) := n in d.
Definition Attr (n : Node) : list Attribute := let (_, _, a, _) := n in a.
Definition Children (n : Node) : list Node := let (_, _, _, c) := n in c.

(** [type SearchResult struct] *)
Record SearchResult : Type := mkResult {
  Name : string;
  DownloadLink : string;
  SourceLink : string
}.

(** The zero value [SearchResult{}]. *)
Definition emptyResult : SearchResult := mkResult "" "" "".

Definition set_Name (r : SearchResult) (v : string) : SearchResult :=
  mkResult v (DownloadLink r) (SourceLink r).
Definition set_DownloadLink (r : SearchResult) (v : string) : SearchResult :=
  mkResult (Name r) v (SourceLink r).
Definition set_SourceLink (r : SearchResult) (v : string) : SearchResult :=
  mkResult (Name r) (DownloadLink r) v.

(** ** Run-time panics *)

Inductive RuntimeError : Type :=
| NilDereference      (* invalid memory address or nil pointer dereference *)
| IndexOutOfRange      (* index out of range [0] with length 0 *)
| SendOnClosedChannel  (* send on closed channel *)
| CloseOfClosedChannel.  (* close of closed channel *)

(** A computation that returns a value or panics. *)
Inductive Exc (A : Type) : Type :=
| Return (a : A)
| Raise (e : RuntimeError).
Arguments Return {A} a.
Arguments Raise {A} e.

Definition ebind {A B} (m : Exc A) (k : A -> Exc B) : Exc B :=
  match m with
  | Return a => k a
  | Raise e => Raise e
  end.

(** A [for ... range] loop whose body updates an accumulator and may panic. *)
Definition efold {A B} (body : B -> A -> Exc B) : list A -> B -> Exc B :=
  fix go (l : list A) (acc : B) : Exc B :=
    match l with
    | [] => Return acc
    | x :: rest => ebind (body acc x) (go rest)
    end.

(** ** Strings *)

(** [strings.HasPrefix] *)
Fixpoint HasPrefix (s prefix : string) : bool :=
  match prefix, s with
  | EmptyString, _ => true
  | String _ _, EmptyString => false
  | String a p', String b s' => Ascii.eqb a b && HasPrefix s' p'
  end.

(** [strings.Contains]: some suffix of [s] starts with [substr]. *)
Fixpoint Contains (s substr : string) : bool :=
  if HasPrefix s substr then true
  else match s with
       | EmptyString => false
       | String _ s' => Contains s' substr
       end.

(** [strings.HasSuffix]:
    [len(s) >= len(suffix) && s[len(s)-len(suffix):] == suffix]. *)
Definition HasSuffix (s suffix : string) : bool :=
  Nat.leb (String.length suffix) (String.length s) &&
  String.eqb
    (substring (String.length s - String.length suffix)
               (String.length suffix) s)
    suffix.

(** Lowercasing of the ASCII letters; every other byte is kept.  This is what
    [strings.ToLower] does on a string of ASCII bytes, and it is the instance
    used to run the engine on concrete documents. *)
Definition lower_byte (c : ascii) : ascii :=
  let n := nat_of_ascii c in
  if Nat.leb 65 n && Nat.leb n 90 then ascii_of_nat (n + 32) else c.

Fixpoint ToLower_ascii (s : string) : string :=
  match s with
  | EmptyString => EmptyString
  | String c s' => String (lower_byte c) (ToLower_ascii s')
  end.

(** ** Pure tree functions of [main.go] *)

Section Engine.

(** [strings.ToLower] *)
Variable ToLower : string -> string.

(** [func hasSearchText(text string, searchText string) bool] *)
Definition hasSearchText (text searchText : string) : bool :=
  Contains (ToLower text) (ToLower searchText).

(** [func hasClass(n *html.Node, className string) bool] *)
Definition hasClass (n : Node) (className : string) : bool :=
  existsb (fun attr => String.eqb (Key attr) "class" &&
                       String.eqb (Val attr) className)
          (Attr n).

(** [func isAnchor(n *html.Node) bool] *)
Definition isAnchor (n : Node) : bool :=
  NodeType_eqb (Type_ n) ElementNode && String.eqb (Data n) "a".

(** [func isEm(n *html.Node) bool] *)
Definition isEm (n : Node) : bool :=
  NodeType_eqb (Type_ n) ElementNode && String.eqb (Data n) "em".

(** [func isStrong(n *html.Node) bool] *)
Definition isStrong (n : Node) : bool :=
  NodeType_eqb (Type_ n) ElementNode && String.eqb (Data n) "strong".

(** [func findNodetypeRecursively(node *html.Node, nodeType string) []*html.Node]:
    a matching element is returned alone, its subtree is not searched;
    otherwise the results of the children are appended in order. *)
Fixpoint findNodetypeRecursively (node : Node) (nodeType : string)
  : list Node :=
  match node with
  | mkNode t d _ cs =>
      if NodeType_eqb t ElementNode && String.eqb d nodeType then [node]
      else flat_map (fun child => findNodetypeRecursively child nodeType) cs
  end.

(** [func hasResurivelyText(node *html.Node, searchText string) bool] *)
Fixpoint hasResurivelyText (node : Node) (searchText : string) : bool :=
  match node with
  | mkNode t d _ cs =>
      if NodeType_eqb t TextNode && hasSearchText d searchText then true
      else existsb (fun child => hasResurivelyText child searchText) cs
  end.

(** The loop of [findNodeRecursively]: the first child whose search succeeds. *)
Definition firstFound (f : Node -> option Node) : list Node -> option Node :=
  fix go (cs : list Node) : option Node :=
    match cs with
    | [] => None
    | child :: rest =>
        match f child with
        | Some result => Some result
        | None => go rest
        end
    end.

(** [func findNodeRecursively(node *html.Node, className string) *html.Node] *)
Fixpoint findNodeRecursively (node : Node) (className : string)
  : option Node :=
  if hasClass node className then Some node
  else match node with
       | mkNode _ _ _ cs =>
           firstFound (fun child => findNodeRecursively child className) cs
       end.

(** ** Record extraction: the loops of [processNode] *)

(** Body of [for textChild := range child.ChildNodes()]:
    [textData := textChild.FirstChild.Data] dereferences [FirstChild], which
    is [nil] when [textChild] has no child. *)
Definition titleBody (Result : SearchResult) (textChild : Node)
  : Exc SearchResult :=
  if hasClass textChild "chatlog__markdown chatlog__markdown-preserve" then
    match Children textChild with
    | [] => Raise NilDereference
    | FirstChild :: _ => Return (set_Name Result (Data FirstChild))
    end
  else Return Result.

(** Body of [for _, aContainer := range anchorTags]:
    [hrefData := aContainer.Attr[0].Val] indexes the attribute slice at 0. *)
Definition anchorBody (Result : SearchResult) (aContainer : Node)
  : Exc SearchResult :=
  match Attr aContainer with
  | [] => Raise IndexOutOfRange
  | attr0 :: _ =>
      let hrefData := Val attr0 in
      let Result1 :=
        if hasResurivelyText aContainer "Source"
        then set_SourceLink Result hrefData else Result in
      let Result2 :=
        if hasResurivelyText aContainer "Download"
        then set_DownloadLink Result1 hrefData else Result1 in
      Return Result2
  end.

(** The condition of the second [if] of the loop over the embed's children.
    In Go [&&] binds tighter than [||]:
    [hasClass(child, description) || (hasClass(child, fields) && Result.Name != "")]. *)
Definition linkGuard (child : Node) (Result : SearchResult) : bool :=
  hasClass child "chatlog__embed-description" ||
  (hasClass child "chatlog__embed-fields" &&
   negb (String.eqb (Name Result) "")).

(** [linkContainer := findNodeRecursively(child, fields)], and when that is
    [nil], [findNodeRecursively(child, description)]. *)
Definition linkContainerOf (child : Node) : option Node :=
  match findNodeRecursively child "chatlog__embed-fields" with
  | Some linkContainer => Some linkContainer
  | None => findNodeRecursively child "chatlog__embed-description"
  end.

(** [findNodetypeRecursively(linkContainer, "a")] reads [node.Type] first:
    a [nil] argument is a nil dereference. *)
Definition anchorTagsOf (linkContainer : option Node) : Exc (list Node) :=
  match linkContainer with
  | None => Raise NilDereference
  | Some node => Return (findNodetypeRecursively node "a")
  end.

(** Body of [for child := range doc.ChildNodes()]. *)
Definition childBody (Result : SearchResult) (child : Node)
  : Exc SearchResult :=
  ebind
    (if hasClass child "chatlog__embed-title"
     then efold titleBody (Children child) Result
     else Return Result)
    (fun Result =>
       if linkGuard child Result then
         ebind (anchorTagsOf (linkContainerOf child))
               (fun anchorTags => efold anchorBody anchorTags Result)
       else Return Result).

(** The first part of [processNode]: [Result := SearchResult{}] followed by
    the loop over the children of the embed root. *)
Definition extractResult (doc : Node) : Exc SearchResult :=
  efold childBody (Children doc) emptyResult.

End Engine.

(** ** State of a search request *)

(** The package-level variables read by the scanning goroutine, the output
    channel of the request, and [uiWrites]: the assignments [searchText = text]
    of the input field's change handler, which runs in another goroutine.
    The k-th element says what that goroutine did to [searchText] since the
    scanning goroutine last read it: [Some v] stored [v], [None] nothing.
    An empty list is a scan during which nobody writes [searchText]. *)
Record State : Type := mkState {
  searchText : string;
  dataFolder : string;
  uiWrites : list (option string);
  sent : list SearchResult;        (* values sent on the channel, in order *)
  closed : bool                    (* [close(outputChannel)] was executed *)
}.

(** What a run of the scanning code ends in: normal return or panic, and the
    state reached. *)
Inductive Outcome (A : Type) : Type :=
| Ok (a : A) (s : State)
| Panic (e : RuntimeError) (s : State).
Arguments Ok {A} a s.
Arguments Panic {A} e s.

Definition M (A : Type) : Type := State -> Outcome A.

Definition ret {A} (a : A) : M A := fun s => Ok a s.

Definition bind {A B} (m : M A) (k : A -> M B) : M B :=
  fun s => match m s with
           | Ok a s' => k a s'
           | Panic e s' => Panic e s'
           end.

Declare Scope go_scope.
Delimit Scope go_scope with go.
Notation "x <- m ;; k" := (bind m (fun x => k))
  (at level 61, m at next level, right associativity) : go_scope.
Notation "m ;;; k" := (bind m (fun _ => k))
  (at level 61, right associativity) : go_scope.

(** A panic of the pure part propagates. *)
Definition liftExc {A} (m : Exc A) : M A :=
  fun s => match m with
           | Return a => Ok a s
           | Raise e => Panic e s
           end.

(** A [for ... range] loop run for its effects. *)
Definition forM_ {A} (body : A -> M unit) : list A -> M unit :=
  fix go (l : list A) : M unit :=
    match l with
    | [] => ret tt
    | x :: rest => bind (body x) (fun _ => go rest)
    end.

(** A read of the package-level [searchText]: the pending write of the other
    goroutine, if any, lands first. *)
Definition load_searchText : M string :=
  fun s =>
    match uiWrites s with
    | [] => Ok (searchText s) s
    | w :: ws =>
        let v := match w with Some v => v | None => searchText s end in
        Ok v (mkState v (dataFolder s) ws (sent s) (closed s))
    end.

(** A read of the package-level [dataFolder] (written once, by [flag.Parse]). *)
Definition load_dataFolder : M string :=
  fun s => Ok (dataFolder s) s.

(** [outChannel <- Result]; the consumer goroutine of [ProcessInput] receives
    every value until the channel is closed. *)
Definition send (Result : SearchResult) : M unit :=
  fun s =>
    if closed s then Panic SendOnClosedChannel s
    else Ok tt (mkState (searchText s) (dataFolder s) (uiWrites s)
                        (sent s ++ [Result]) (closed s)).

(** [close(outputChannel)] *)
Definition close : M unit :=
  fun s =>
    if closed s then Panic CloseOfClosedChannel s
    else Ok tt (mkState (searchText s) (dataFolder s) (uiWrites s)
                        (sent s) true).

(** The state in which a request starts: a fresh channel. *)
Definition request (text folder : string) (writes : list (option string))
  : State :=
  mkState text folder writes [] false.

(** The file system and the markup parser, as the scan sees them.
    [None] and [false] stand for a non-nil [err]. *)
Record World : Type := mkWorld {
  os_ReadDir : string -> option (list string);   (* names of the entries *)
  os_Open : string -> bool;
  os_ReadFile : string -> option string;
  html_Parse : string -> option Node;
  path_Join : string -> string -> string
}.

(** ** The scanning code *)

Section Scan.

Variable ToLower : string -> string.
Variable W : World.

Local Open Scope go_scope.

(** [func processNode(doc *html.Node, outChannel chan SearchResult)].
    The filter names [searchText], and the function has no such parameter or
    local: each operand of the [||] reads the package-level variable. *)
Definition processNode (doc : Node) : M unit :=
  Result <- liftExc (extractResult ToLower doc) ;;
  text1 <- load_searchText ;;
  if hasSearchText ToLower (Name Result) text1 then send Result
  else
    text2 <- load_searchText ;;
    if hasSearchText ToLower (SourceLink Result) text2 then send Result
    else
      text3 <- load_searchText ;;
      if hasSearchText ToLower (DownloadLink Result) text3 then send Result
      else ret tt.

(** [func processAllItems(doc *html.Node, outChannel chan SearchResult)] *)
Fixpoint processAllItems (doc : Node) : M unit :=
  match doc with
  | mkNode t d _ cs =>
      (if NodeType_eqb t ElementNode && String.eqb d "div"
       then if hasClass doc "chatlog__embed-text"
            then processNode doc else ret tt
       else ret tt) ;;;
      forM_ processAllItems cs
  end.

(** [func ParseHTML(r *os.File, searchText string, outChannel chan SearchResult)];
    [r] is represented by [r.Name()], the only use made of it.  The parameter
    [searchText] is not used by the body. *)
Definition ParseHTML (r : string) (searchText : string) : M unit :=
  match os_ReadFile W r with
  | None => ret tt
  | Some content =>
      match html_Parse W content with
      | None => ret tt
      | Some doc => processAllItems doc
      end
  end.

(** [func searchFile(fileName string, searchText string, outputChannel chan SearchResult)] *)
Definition searchFile (fileName : string) (searchText : string) : M unit :=
  if os_Open W fileName then ParseHTML fileName searchText
  else ret tt.

(** [func Search(outputChannel chan SearchResult)] *)
Definition Search : M unit :=
  searchTextCopy <- load_searchText ;;
  folder <- load_dataFolder ;;
  match os_ReadDir W folder with
  | None => ret tt
  | Some files =>
      forM_ (fun file =>
               if HasSuffix file ".html" then
                 folder' <- load_dataFolder ;;
                 searchFile (path_Join W folder' file) searchTextCopy
               else ret tt)
            files ;;;
      close
  end.

End Scan.

(** ** The consumer of the results: [ProcessInput] *)

(** What [ProcessInput] and the updates it queues touch: [resultList] (a
    [tview.TextView], here the bytes written to it since its last [Clear]),
    the text and the disabled flag of [inputField], and the local
    [startedSearching] that the queued updates capture.  The updates queued
    with [app.QueueUpdateDraw] run one after the other, in the order in which
    they were queued. *)
Record UI : Type := mkUI {
  resultList : string;
  inputText : string;
  inputDisabled : bool;
  startedSearching : bool
}.

Definition tab : string := String (ascii_of_nat 9) EmptyString.
Definition newline : string := String (ascii_of_nat 10) EmptyString.

(** [result.Name + "\t" + result.SourceLink + "\t" + result.DownloadLink + "\n"] *)
Definition resultStr (result : SearchResult) : string :=
  (Name result ++ tab ++ SourceLink result ++ tab ++ DownloadLink result
   ++ newline)%string.

(** The update queued for a received [result]: the first one clears the
    list. *)
Definition showResult (ui : UI) (result : SearchResult) : UI :=
  let cleared := if startedSearching ui then ""%string else resultList ui in
  mkUI (cleared ++ resultStr result) (inputText ui) (inputDisabled ui) false.

(** The update queued once the channel is closed. *)
Definition showDone (ui : UI) : UI :=
  mkUI (resultList ui ++ "Done!") "" false (startedSearching ui).

(** The receiving goroutine: [for { result, ok := <-resultChan; ... }] over
    the values sent, then, if the channel was closed, the final update.  On a
    channel that is never closed the loop blocks after the last value. *)
Definition receiveAll (results : list SearchResult) (isClosed : bool)
           (ui : UI) : UI :=
  let ui' := fold_left showResult results ui in
  if isClosed then showDone ui' else ui'.

Section Interface.

Variable ToLower : string -> string.
Variable W : World.

(** [func ProcessInput(app *tview.Application, inputField *tview.InputField)]:
    the list is cleared, the banner written, [Search] started on a fresh
    channel, and the receiving goroutine started.  The result is the outcome
    of [Search] and the interface once every queued update has run. *)
Definition ProcessInput (s : State) (ui : UI) : Outcome unit * UI :=
  let banner := ("Searching: '" ++ searchText s ++ "' ...")%string in
  let ui0 := mkUI banner (inputText ui) (inputDisabled ui) true in
  let o := Search ToLower W
                  (request (searchText s) (dataFolder s) (uiWrites s)) in
  let s' := match o with Ok _ s' => s' | Panic _ s' => s' end in
  (o, receiveAll (sent s') (closed s') ui0).

(** The [SetDoneFunc] handler installed by [main]:
    [inputField.SetDisabled(true); ProcessInput(app, inputField)]. *)
Definition inputDone (s : State) (ui : UI) : Outcome unit * UI :=
  ProcessInput s (mkUI (resultList ui) (inputText ui) true
                       (startedSearching ui)).

End Interface.

(** ** Concrete documents

    Trees as [html.Parse] builds them for small fragments of an exported
    transcript, used to run the engine. *)

Module Doc.

Definition el (tag : string) (attrs : list Attribute) (cs : list Node) : Node :=
  mkNode ElementNode tag attrs cs.
Definition txt (s : string) : Node := mkNode TextNode s [] [].
Definition class (v : string) : Attribute := mkAttr "" "class" v.
Definition href (v : string) : Attribute := mkAttr "" "href" v.

(** [<div class="chatlog__embed-title"><div class="chatlog__markdown
    chatlog__markdown-preserve">t</div></div>] *)
Definition title (t : string) : Node :=
  el "div" [class "chatlog__embed-title"]
     [el "div" [class "chatlog__markdown chatlog__markdown-preserve"] [txt t]].

(** [<a href="u">label</a>] *)
Definition link (u label : string) : Node := el "a" [href u] [txt label].

(** An embed with a title and, in its fields block, a source and a download
    link. *)
Definition cityPack : Node :=
  el "div" [class "chatlog__embed-text"]
     [title "Cool World - City Pack";
      el "div" [class "chatlog__embed-fields"]
         [el "div" [class "chatlog__embed-field"]
             [link "http://a" "Source"; link "http://b" "Download"]]].

(** An embed without a title whose description block holds a source link. *)
Definition untitledDescription : Node :=
  el "div" [class "chatlog__embed-text"]
     [el "div" [class "chatlog__embed-description"]
         [link "http://x" "Source"]].

(** The same, with the link in a fields block. *)
Definition untitledFields : Node :=
  el "div" [class "chatlog__embed-text"]
     [el "div" [class "chatlog__embed-fields"]
         [link "http://x" "Source"]].

(** A title whose "markdown preserve" element is empty:
    [<div class="chatlog__markdown chatlog__markdown-preserve"></div>]. *)
Definition emptyTitle : Node :=
  el "div" [class "chatlog__embed-text"]
     [el "div" [class "chatlog__embed-title"]
         [el "div" [class "chatlog__markdown chatlog__markdown-preserve"] []]].

(** A description block with an anchor that has no attribute:
    [<a>Source</a>]. *)
Definition bareAnchor : Node :=
  el "div" [class "chatlog__embed-text"]
     [el "div" [class "chatlog__embed-description"]
         [el "a" [] [txt "Source"]]].

(** An embed root with no child at all. *)
Definition emptyEmbed : Node := el "div" [class "chatlog__embed-text"] [].

(** A page: [<html><body>...</body></html>] under the document node. *)
Definition page (body : list Node) : Node :=
  mkNode DocumentNode "" [] [el "html" [] [el "head" [] []; el "body" [] body]].

(** A folder [data] whose listing holds a transcript that cannot be opened,
    a text file, a file with an upper-case suffix and one readable
    transcript; the parser is the table that maps the content of the readable
    file to its tree. *)
Definition corpus (doc : Node) : World :=
  mkWorld
    (fun dir => if String.eqb dir "data"
                then Some ["bad.html"; "notes.txt"; "A.HTML"; "a.html"]
                else None)
    (fun name => String.eqb name "data/a.html" ||
                 String.eqb name "data/A.HTML" ||
                 String.eqb name "data/notes.txt")
    (fun name => if String.eqb name "data/a.html" then Some "<a.html>"
                 else None)
    (fun content => if String.eqb content "<a.html>" then Some doc else None)
    (fun dir name => (dir ++ "/" ++ name)%string).

End Doc.

(** ** Vocabulary of the specification

    The predicates in which the properties below are stated. *)

(** [sub] occurs in [s]. *)
Definition Substring (sub s : string) : Prop :=
  exists pre suf, s = (pre ++ sub ++ suf)%string.

(** The nodes of a subtree in document order (pre-order, depth first). *)
Fixpoint preorder (n : Node) : list Node :=
  match n with
  | mkNode _ _ _ cs => n :: flat_map preorder cs
  end.

(** [n] carries an attribute [class] whose value is exactly [className]. *)
Definition HasClassAttr (n : Node) (className : string) : Prop :=
  exists attr, In attr (Attr n) /\ Key attr = "class" /\ Val attr = className.

(** [l1] is [l2] with some elements left out, the order kept. *)
Inductive Subsequence {A : Type} : list A -> list A -> Prop :=
| Subsequence_nil (l : list A) : Subsequence [] l
| Subsequence_keep (x : A) (l1 l2 : list A) :
    Subsequence l1 l2 -> Subsequence (x :: l1) (x :: l2)
| Subsequence_drop (x : A) (l1 l2 : list A) :
    Subsequence l1 l2 -> Subsequence l1 (x :: l2).

(** The state an outcome ends in. *)
Definition final {A} (o : Outcome A) : State :=
  match o with
  | Ok _ s => s
  | Panic _ s => s
  end.

(** An invariant of the state that a computation keeps. *)
Definition Preserves {A} (P : State -> Prop) (m : M A) : Prop :=
  forall s, P s -> P (final (m s)).

(** [close] has not been executed. *)
Definition ChannelOpen (s : State) : Prop := closed s = false.

(** Nothing in the scan writes [dataFolder]. *)
Definition FolderIs (folder : string) (s : State) : Prop :=
  dataFolder s = folder.

(** The test [processAllItems] applies to every node it visits. *)
Definition isEmbedRoot (n : Node) : bool :=
  NodeType_eqb (Type_ n) ElementNode && String.eqb (Data n) "div" &&
  hasClass n "chatlog__embed-text".

Section Vocabulary.

Variable ToLower : string -> string.
Variable W : World.

(** The condition under which [processNode] sends its record, for a search
    text that does not change between the three reads. *)
Definition passesFilter (r : SearchResult) (text : string) : bool :=
  hasSearchText ToLower (Name r) text ||
  hasSearchText ToLower (SourceLink r) text ||
  hasSearchText ToLower (DownloadLink r) text.

(** [text], lowercased, occurs in one of the three fields, lowercased. *)
Definition Matches (text : string) (r : SearchResult) : Prop :=
  Substring (ToLower text) (ToLower (Name r)) \/
  Substring (ToLower text) (ToLower (SourceLink r)) \/
  Substring (ToLower text) (ToLower (DownloadLink r)).

(** A scan without interference: the search text is [text], no write of the
    other goroutine is pending, and everything sent so far matches. *)
Definition OnlyMatches (text : string) (s : State) : Prop :=
  searchText s = text /\ uiWrites s = [] /\ Forall (Matches text) (sent s).

(** Some text node of the subtree of [node] contains [word], both
    lowercased. *)
Definition TextContains (node : Node) (word : string) : Prop :=
  exists t, In t (preorder node) /\ Type_ t = TextNode /\
            Substring (ToLower word) (ToLower (Data t)).

(** What the anchor loop leaves in a link field written for [word]:
    [hrefData] of the last anchor whose text contains [word], or the old value
    when no anchor does.  [hrefData] is the value of the anchor's first
    attribute. *)
Definition LastMatchWins (word : string) (anchorTags : list Node)
           (before after : string) : Prop :=
  ((forall a, In a anchorTags -> ~ TextContains a word) /\ after = before) \/
  (exists pre a post attr0 attrs,
      anchorTags = pre ++ a :: post /\
      TextContains a word /\
      (forall b, In b post -> ~ TextContains b word) /\
      Attr a = attr0 :: attrs /\
      after = Val attr0).

(** The tree [Search] hands to the locator for a directory entry, if any:
    the entry must end in [.html], open, read and parse. *)
Definition loadDocument (folder file : string) : option Node :=
  if HasSuffix file ".html" then
    if os_Open W (path_Join W folder file) then
      match os_ReadFile W (path_Join W folder file) with
      | Some content => html_Parse W content
      | None => None
      end
    else None
  else None.

(** The documents of a listing, in listing order. *)
Definition documents (folder : string) (files : list string) : list Node :=
  flat_map (fun file => match loadDocument folder file with
                        | Some doc => [doc]
                        | None => []
                        end) files.

End Vocabulary.

(** ** Vocabulary of the further properties *)


(** A computation that, started with the channel open, leaves it open and
    panics, if at all, with one of the two panics of record extraction. *)
Definition ChannelSafe {A} (m : M A) : Prop :=
  forall s, ChannelOpen s ->
    match m s with
    | Ok _ s' => ChannelOpen s'
    | Panic e s' =>
        ChannelOpen s' /\ (e = NilDereference \/ e = IndexOutOfRange)
    end.

(** The embed roots of a list of documents, in the order in which the scan
    meets them. *)
Definition embedsOf (docs : list Node) : list Node :=
  flat_map (fun doc => filter isEmbedRoot (preorder doc)) docs.

(** The text the result list shows for a list of records. *)
Definition resultLines (results : list SearchResult) : string :=
  fold_right (fun r rest => (resultStr r ++ rest)%string) ""%string results.

(** A computation that only adds to what was sent, and adds a subsequence
    of [rs]. *)
Definition Emits {A} (m : M A) (rs : list SearchResult) : Prop :=
  forall s, exists l,
    sent (final (m s)) = sent s ++ l /\ Subsequence l rs.

Section FurtherVocabulary.

Variable ToLower : string -> string.

(** The test [hasResurivelyText] applies to a node. *)
Definition isMatchingText (word : string) (n : Node) : bool :=
  NodeType_eqb (Type_ n) TextNode && hasSearchText ToLower (Data n) word.

(** The records of a list of embed roots up to the first extraction that
    panics, and that panic. *)
Fixpoint extractAll (embeds : list Node)
  : list SearchResult * option RuntimeError :=
  match embeds with
  | [] => ([], None)
  | embed :: rest =>
      match extractResult ToLower embed with
      | Raise e => ([], Some e)
      | Return r => let (rs, stop) := extractAll rest in (r :: rs, stop)
      end
  end.

(** A link field holds nothing, or [hrefData] of an anchor whose text
    contains [word] and that lies under a child of the embed root carrying
    the description or the fields class. *)
Definition LinkFrom (children : list Node) (word link : string) : Prop :=
  link = ""%string \/
  exists child a attr0 attrs,
    In child children /\
    (hasClass child "chatlog__embed-description" = true \/
     hasClass child "chatlog__embed-fields" = true) /\
    In a (preorder child) /\ isAnchor a = true /\
    TextContains ToLower a word /\
    Attr a = attr0 :: attrs /\ link = Val attr0.

End FurtherVocabulary.

(** [Name] holds nothing, or the [Data] of the first child of a "markdown
    preserve" child of a title child of the embed root. *)
Definition NameFrom (children : list Node) (name : string) : Prop :=
  name = ""%string \/
  exists child textChild first rest,
    In child children /\ hasClass child "chatlog__embed-title" = true /\
    In textChild (Children child) /\
    hasClass textChild "chatlog__markdown chatlog__markdown-preserve" = true /\
    Children textChild = first :: rest /\ name = Data first.

(** An embed root on which extraction reads no missing child and no missing
    attribute: every "markdown preserve" child of a title child has a child,
    and every anchor of the subtree has an attribute. *)
Definition Extractable (doc : Node) : Prop :=
  (forall child textChild,
      In child (Children doc) -> hasClass child "chatlog__embed-title" = true ->
      In textChild (Children child) ->
      hasClass textChild "chatlog__markdown chatlog__markdown-preserve" = true ->
      Children textChild <> []) /\
  (forall a, In a (preorder doc) -> isAnchor a = true -> Attr a <> []).

(** More documents. *)
Module Sample.

(** The embed of [Doc.cityPack] with the fields block before the title. *)
Definition fieldsFirst : Node :=
  Doc.el "div" [Doc.class "chatlog__embed-text"]
     [Doc.el "div" [Doc.class "chatlog__embed-fields"]
         [Doc.el "div" [Doc.class "chatlog__embed-field"]
             [Doc.link "http://a" "Source"; Doc.link "http://b" "Download"]];
      Doc.title "Cool World - City Pack"].

(** A fields block nested in a description block, and a link with markup
    inside: [<a href="http://a"><strong>Source</strong> code</a>]. *)
Definition nested : Node :=
  Doc.el "div" [Doc.class "chatlog__embed-description"]
     [Doc.txt "see";
      Doc.el "div" [Doc.class "chatlog__embed-fields"]
         [Doc.el "a" [Doc.href "http://a"]
             [Doc.el "strong" [] [Doc.txt "Source"]; Doc.txt " code"]]].

(** A page without any embed. *)
Definition plainPage : Node :=
  Doc.page [Doc.el "div" [Doc.class "chatlog__message"] [Doc.txt "hello"]].

End Sample.

(** * Properties *)

(** ** Strings *)

Lemma HasPrefix_spec (s p : string) :
  HasPrefix s p = true <-> exists suf, s = (p ++ suf)%string.
Proof.
  revert s; induction p as [|a p IH]; intros s; simpl.
  - split; [intros _; now exists s | intros _; now destruct s].
  - destruct s as [|b s]; simpl.
    + split; [discriminate | intros [suf H]; discriminate].
    + rewrite andb_true_iff, Ascii.eqb_eq, IH. split.
      * intros [-> [suf ->]]. now exists suf.
      * intros [suf H]. injection H as -> ->. split; [reflexivity | now exists suf].
Qed.

Lemma Contains_eq (s sub : string) :
  Contains s sub =
  if HasPrefix s sub then true
  else match s with
       | EmptyString => false
       | String _ s' => Contains s' sub
       end.
Proof. destruct s; reflexivity. Qed.

Lemma Contains_spec (s sub : string) :
  Contains s sub = true <-> Substring sub s.
Proof.
  unfold Substring. induction s as [|c s IH]; rewrite Contains_eq.
  - destruct (HasPrefix "" sub) eqn:E.
    + split; [intros _ | reflexivity].
      apply HasPrefix_spec in E as [suf E]. now exists ""%string, suf.
    + split; [discriminate|]. intros [pre [suf H]].
      destruct pre; [|discriminate]. simpl in H.
      assert (HasPrefix "" sub = true) by (apply HasPrefix_spec; now exists suf).
      congruence.
  - destruct (HasPrefix (String c s) sub) eqn:E.
    + split; [intros _ | reflexivity].
      apply HasPrefix_spec in E as [suf E]. now exists ""%string, suf.
    + rewrite IH. split.
      * intros [pre [suf ->]]. now exists (String c pre), suf.
      * intros [pre [suf H]]. destruct pre as [|c' pre]; simpl in H.
        -- assert (HasPrefix (String c s) sub = true)
             by (apply HasPrefix_spec; now exists suf).
           congruence.
        -- injection H as _ ->. now exists pre, suf.
Qed.

Lemma Contains_empty (s : string) : Contains s "" = true.
Proof. destruct s; reflexivity. Qed.

Lemma length_append (a b : string) :
  String.length (a ++ b) = String.length a + String.length b.
Proof. induction a; simpl; congruence. Qed.

Lemma substring_all (s : string) : substring 0 (String.length s) s = s.
Proof. induction s; simpl; congruence. Qed.

Lemma substring_append_right (a b : string) :
  substring (String.length a) (String.length b) (a ++ b) = b.
Proof. induction a; simpl; [apply substring_all | assumption]. Qed.

Lemma substring_split (s : string) (n : nat) :
  n <= String.length s ->
  s = (substring 0 n s ++ substring n (String.length s - n) s)%string.
Proof.
  revert n; induction s as [|c s IH]; intros [|n] Hn; simpl in *;
    try reflexivity; try lia.
  - now rewrite substring_all.
  - f_equal. apply IH. lia.
Qed.

(** [HasSuffix] compares bytes: it is the suffix relation on byte strings. *)
Lemma HasSuffix_spec (s suffix : string) :
  HasSuffix s suffix = true <-> exists pre, s = (pre ++ suffix)%string.
Proof.
  unfold HasSuffix. rewrite andb_true_iff, Nat.leb_le, String.eqb_eq. split.
  - intros [Hlen Heq].
    exists (substring 0 (String.length s - String.length suffix) s).
    assert (Hsplit := substring_split s
                        (String.length s - String.length suffix)
                        (Nat.le_sub_l _ _)).
    replace (String.length s - (String.length s - String.length suffix))
      with (String.length suffix) in Hsplit by lia.
    now rewrite Heq in Hsplit.
  - intros [pre ->]. rewrite length_append. split; [lia|].
    replace (String.length pre + String.length suffix - String.length suffix)
      with (String.length pre) by lia.
    apply substring_append_right.
Qed.

(** ** Trees *)

(** Induction on a tree, with the property available for every child. *)
Lemma Node_forall_ind (P : Node -> Prop) :
  (forall t d a cs, Forall P cs -> P (mkNode t d a cs)) ->
  forall n, P n.
Proof.
  intros step. fix IH 1. intros [t d a cs]. apply step.
  induction cs as [|c cs IHcs]; constructor; [apply IH | exact IHcs].
Qed.

Lemma hasClass_spec (n : Node) (className : string) :
  hasClass n className = true <-> HasClassAttr n className.
Proof.
  unfold hasClass, HasClassAttr. rewrite existsb_exists.
  split; intros [attr [Hin H]]; exists attr; split; auto.
  - apply andb_true_iff in H as [H1 H2].
    apply String.eqb_eq in H1, H2. auto.
  - destruct H as [-> ->]. now rewrite !String.eqb_refl.
Qed.

Lemma NodeType_eqb_eq (a b : NodeType) : NodeType_eqb a b = true <-> a = b.
Proof. destruct a, b; simpl; split; congruence. Qed.

Lemma findNodeRecursively_eq (node : Node) (className : string) :
  findNodeRecursively node className =
  if hasClass node className then Some node
  else firstFound (fun child => findNodeRecursively child className)
                  (Children node).
Proof. destruct node; reflexivity. Qed.

Lemma findNodeRecursively_root (node : Node) (className : string) :
  hasClass node className = true ->
  findNodeRecursively node className = Some node.
Proof. intros H. now rewrite findNodeRecursively_eq, H. Qed.

(** What [findNodeRecursively] returns carries the class and lies in the
    subtree searched. *)
Lemma findNodeRecursively_sound (className : string) (node found : Node) :
  findNodeRecursively node className = Some found ->
  hasClass found className = true /\ In found (preorder node).
Proof.
  revert found. induction node as [t d a cs IH] using Node_forall_ind.
  intros found. rewrite findNodeRecursively_eq.
  destruct (hasClass (mkNode t d a cs) className) eqn:E.
  - intros [= <-]. split; [exact E | now left].
  - cbn [Children preorder]. intros H.
    enough (hasClass found className = true /\ In found (flat_map preorder cs))
      as [H1 H2] by (split; [exact H1 | now right]).
    clear E. induction IH as [|c cs Hc _ IHcs]; simpl in H; [discriminate|].
    destruct (findNodeRecursively c className) eqn:Ec.
    + injection H as ->. destruct (Hc _ eq_refl) as [H1 H2].
      split; [exact H1|]. simpl. apply in_or_app. now left.
    + destruct (IHcs H) as [H1 H2].
      split; [exact H1|]. simpl. apply in_or_app. now right.
Qed.

(** ** The state monad *)

Lemma bind_ext {A B} (m m' : M A) (k k' : A -> M B) (s : State) :
  m s = m' s -> (forall a s', k a s' = k' a s') ->
  bind m k s = bind m' k' s.
Proof.
  intros Hm Hk. unfold bind. rewrite Hm.
  destruct (m' s); [apply Hk | reflexivity].
Qed.

Lemma bind_assoc {A B C} (m : M A) (k : A -> M B) (k' : B -> M C)
      (s : State) :
  bind (bind m k) k' s = bind m (fun a => bind (k a) k') s.
Proof. unfold bind. destruct (m s); reflexivity. Qed.

Lemma forM__app {A} (body : A -> M unit) (l1 l2 : list A) (s : State) :
  forM_ body (l1 ++ l2) s = bind (forM_ body l1) (fun _ => forM_ body l2) s.
Proof.
  revert s; induction l1 as [|x l1 IH]; intros s.
  - reflexivity.
  - cbn [app forM_]. rewrite bind_assoc.
    apply bind_ext; [reflexivity | intros _ s'; apply IH].
Qed.

(** ** Embed locator *)

Lemma processAllItems_eq (ToLower : string -> string) (doc : Node) (s : State) :
  processAllItems ToLower doc s =
  bind (if isEmbedRoot doc then processNode ToLower doc else ret tt)
       (fun _ => forM_ (processAllItems ToLower) (Children doc)) s.
Proof.
  destruct doc as [t d a cs]. cbn [processAllItems Children].
  apply bind_ext; [|reflexivity].
  unfold isEmbedRoot. cbn [Type_ Data].
  destruct (NodeType_eqb t ElementNode && String.eqb d "div"); reflexivity.
Qed.

(** C7. The embed locator calls [processNode] on exactly the nodes that are
    [div] elements with a [class] attribute whose value equals
    ["chatlog__embed-text"] (so [class="chatlog__embed-text extra"] is not
    selected), and it does so in pre-order depth-first order: a run of
    [processAllItems] is the run of [processNode] over the selected nodes of
    the pre-order listing of the document. *)
Theorem processAllItems_preorder_exact (ToLower : string -> string) :
  (forall doc s,
      processAllItems ToLower doc s =
      forM_ (processNode ToLower) (filter isEmbedRoot (preorder doc)) s) /\
  (forall n,
      isEmbedRoot n = true <->
      Type_ n = ElementNode /\ Data n = "div" /\
      HasClassAttr n "chatlog__embed-text") /\
  isEmbedRoot (Doc.el "div" [Doc.class "chatlog__embed-text extra"] []) = false.
Proof.
  split; [|split].
  - induction doc as [t d a cs IH] using Node_forall_ind. intros s.
    rewrite processAllItems_eq. cbn [preorder filter Children].
    assert (Hcs : forall s',
               forM_ (processAllItems ToLower) cs s' =
               forM_ (processNode ToLower)
                     (filter isEmbedRoot (flat_map preorder cs)) s').
    { induction IH as [|c cs Hc _ IHcs]; intros s'; [reflexivity|].
      cbn [flat_map]. rewrite filter_app, forM__app.
      cbn [forM_]. apply bind_ext; [apply Hc | intros _ s''; apply IHcs]. }
    destruct (isEmbedRoot (mkNode t d a cs)).
    + cbn [forM_]. apply bind_ext; [reflexivity | intros _ s'; apply Hcs].
    + unfold bind, ret. apply Hcs.
  - intros n. unfold isEmbedRoot.
    rewrite !andb_true_iff, NodeType_eqb_eq, String.eqb_eq, hasClass_spec.
    tauto.
  - reflexivity.
Qed.

(** ** The guarded link container *)

(** C10. When a child of the embed root passes the guard of [processNode],
    the link container ([findNodeRecursively] for the fields class, then for
    the description class) is not nil: it is a node carrying one of the two
    classes, and the anchors are collected from it without a nil
    dereference. *)
Theorem linkContainer_not_nil (child : Node) (Result : SearchResult) :
  linkGuard child Result = true ->
  exists linkContainer,
    linkContainerOf child = Some linkContainer /\
    (hasClass linkContainer "chatlog__embed-fields" = true \/
     hasClass linkContainer "chatlog__embed-description" = true) /\
    anchorTagsOf (linkContainerOf child) =
    Return (findNodetypeRecursively linkContainer "a").
Proof.
  unfold linkGuard, linkContainerOf. intros Hguard.
  destruct (findNodeRecursively child "chatlog__embed-fields") as [n|] eqn:Ef.
  - exists n. split; [reflexivity|]. split; [|reflexivity].
    left. now apply findNodeRecursively_sound in Ef.
  - assert (Hd : hasClass child "chatlog__embed-description" = true).
    { apply orb_true_iff in Hguard as [H|H]; [exact H|].
      apply andb_true_iff in H as [H _].
      rewrite (findNodeRecursively_root _ _ H) in Ef. discriminate. }
    exists child. rewrite (findNodeRecursively_root _ _ Hd).
    split; [reflexivity|]. split; [now right | reflexivity].
Qed.

Lemma linkContainer_not_nil_witness :
  linkGuard (Doc.el "div" [Doc.class "chatlog__embed-description"]
                    [Doc.link "http://x" "Source"]) emptyResult = true /\
  exists linkContainer,
    linkContainerOf (Doc.el "div" [Doc.class "chatlog__embed-description"]
                            [Doc.link "http://x" "Source"])
    = Some linkContainer.
Proof.
  split; [reflexivity|].
  destruct (linkContainer_not_nil
              (Doc.el "div" [Doc.class "chatlog__embed-description"]
                      [Doc.link "http://x" "Source"])
              emptyResult eq_refl) as [lc [H _]].
  exists lc. exact H.
Defined.

(** ** Match filter *)

Section Filter.

Variable ToLower : string -> string.

Lemma passesFilter_spec (r : SearchResult) (text : string) :
  passesFilter ToLower r text = true <-> Matches ToLower text r.
Proof.
  unfold passesFilter, Matches, hasSearchText.
  rewrite !orb_true_iff, !Contains_spec. tauto.
Qed.

(** [processNode] in a state where nobody writes [searchText] and the channel
    is open. *)
Lemma processNode_quiet (doc : Node) (text folder : string)
      (sent0 : list SearchResult) :
  processNode ToLower doc (mkState text folder [] sent0 false) =
  match extractResult ToLower doc with
  | Return r =>
      Ok tt (mkState text folder []
                     (if passesFilter ToLower r text then sent0 ++ [r] else sent0)
                     false)
  | Raise e => Panic e (mkState text folder [] sent0 false)
  end.
Proof.
  unfold processNode, bind, liftExc, passesFilter.
  destruct (extractResult ToLower doc) as [r|e]; [|reflexivity].
  cbn [load_searchText uiWrites searchText].
  destruct (hasSearchText ToLower (Name r) text); [reflexivity|].
  cbn [load_searchText uiWrites searchText].
  destruct (hasSearchText ToLower (SourceLink r) text); [reflexivity|].
  cbn [load_searchText uiWrites searchText].
  destruct (hasSearchText ToLower (DownloadLink r) text); reflexivity.
Qed.

Lemma Preserves_ret {A} (P : State -> Prop) (a : A) : Preserves P (ret a).
Proof. intros s H. exact H. Qed.

Lemma Preserves_bind {A B} (P : State -> Prop) (m : M A) (k : A -> M B) :
  Preserves P m -> (forall a, Preserves P (k a)) -> Preserves P (bind m k).
Proof.
  intros Hm Hk s H. unfold bind. specialize (Hm s H).
  destruct (m s) as [a s'|e s']; [apply Hk|]; exact Hm.
Qed.

Lemma Preserves_forM_ {A} (P : State -> Prop) (body : A -> M unit)
      (l : list A) :
  Forall (fun x => Preserves P (body x)) l -> Preserves P (forM_ body l).
Proof.
  induction 1 as [|x l Hx _ IH]; cbn [forM_].
  - apply Preserves_ret.
  - apply Preserves_bind; [exact Hx | intros _; exact IH].
Qed.

Lemma Preserves_load_dataFolder (P : State -> Prop) :
  Preserves P load_dataFolder.
Proof. intros s H. exact H. Qed.

Lemma processNode_OnlyMatches (text : string) (doc : Node) :
  Preserves (OnlyMatches ToLower text) (processNode ToLower doc).
Proof.
  intros [text' folder writes sent0 [|]] [Ht [Hw Hs]];
    cbn [searchText uiWrites sent] in Ht, Hw, Hs; subst text' writes.
  - (* a closed channel: nothing can be sent *)
    unfold processNode, bind, liftExc, send, ret.
    destruct (extractResult ToLower doc) as [r|e];
      [|repeat split; assumption].
    cbn -[hasSearchText].
    destruct (hasSearchText ToLower (Name r) text);
      cbn -[hasSearchText]; [repeat split; assumption|].
    destruct (hasSearchText ToLower (SourceLink r) text);
      cbn -[hasSearchText]; [repeat split; assumption|].
    destruct (hasSearchText ToLower (DownloadLink r) text);
      cbn -[hasSearchText]; repeat split; assumption.
  - rewrite processNode_quiet.
    destruct (extractResult ToLower doc) as [r|e]; cbn [final];
      repeat split; cbn [sent]; try assumption.
    destruct (passesFilter ToLower r text) eqn:E; [|assumption].
    apply Forall_app. split; [assumption|].
    constructor; [now apply passesFilter_spec | constructor].
Qed.

Lemma processAllItems_OnlyMatches (text : string) (doc : Node) :
  Preserves (OnlyMatches ToLower text) (processAllItems ToLower doc).
Proof.
  induction doc as [t d a cs IH] using Node_forall_ind.
  intros s Hs. rewrite processAllItems_eq. revert s Hs.
  apply Preserves_bind.
  - destruct (isEmbedRoot (mkNode t d a cs));
      [apply processNode_OnlyMatches | apply Preserves_ret].
  - intros _. apply Preserves_forM_. exact IH.
Qed.

Lemma Search_OnlyMatches (W : World) (text : string) :
  Preserves (OnlyMatches ToLower text) (Search ToLower W).
Proof.
  intros s Hs. unfold Search.
  assert (Hload : load_searchText s = Ok text s).
  { destruct Hs as [Ht [Hw _]]. unfold load_searchText.
    now rewrite Hw, Ht. }
  unfold bind at 1. rewrite Hload.
  unfold bind at 1. cbn [load_dataFolder].
  destruct (os_ReadDir W (dataFolder s)) as [files|]; [|exact Hs].
  revert s Hs Hload. intros s Hs _. revert s Hs.
  apply Preserves_bind.
  - apply Preserves_forM_. apply Forall_forall. intros file _.
    destruct (HasSuffix file ".html"); [|apply Preserves_ret].
    apply Preserves_bind; [apply Preserves_load_dataFolder|].
    intros folder'. unfold searchFile, ParseHTML.
    destruct (os_Open W _); [|apply Preserves_ret].
    destruct (os_ReadFile W _); [|apply Preserves_ret].
    destruct (html_Parse W _); [|apply Preserves_ret].
    apply processAllItems_OnlyMatches.
  - intros _ [text' folder writes sent0 [|]] H; exact H.
Qed.

(** C1. Filter correctness.  In a search for [text] (during which
    [searchText] is not written by anyone else), every record sent on the
    output channel has [text] as a case-insensitive substring, both sides
    lowercased, of its [Name], [SourceLink] or [DownloadLink]; for each embed
    [processNode] sends the extracted record exactly when that holds, so a
    record with no such field is never sent. *)
Theorem Search_sends_only_matches (W : World) (text folder : string) :
  Forall (Matches ToLower text)
         (sent (final (Search ToLower W (request text folder [])))) /\
  (forall doc sent0,
      sent (final (processNode ToLower doc
                               (mkState text folder [] sent0 false))) =
      match extractResult ToLower doc with
      | Return r => if passesFilter ToLower r text then sent0 ++ [r] else sent0
      | Raise _ => sent0
      end) /\
  (forall r, passesFilter ToLower r text = true <-> Matches ToLower text r).
Proof.
  split; [|split].
  - apply (Search_OnlyMatches W text (request text folder [])).
    repeat split. constructor.
  - intros doc sent0. rewrite processNode_quiet.
    now destruct (extractResult ToLower doc).
  - intros r. apply passesFilter_spec.
Qed.

End Filter.

(** ** Empty search string *)

(** C5, as stated, fails: with the empty search string the record of an embed
    without children, all of whose fields are empty, is sent. *)
Lemma empty_search_emits_empty_record :
  extractResult ToLower_ascii Doc.emptyEmbed = Return emptyResult /\
  ~ (In emptyResult
        (sent (final (processNode ToLower_ascii Doc.emptyEmbed
                                  (request "" "data" []))))
     <->
     (Name emptyResult <> "" \/ SourceLink emptyResult <> "" \/
      DownloadLink emptyResult <> "")).
Proof.
  split; [reflexivity|]. intros [H _].
  destruct H as [H|[H|H]]; try (now left); now apply H.
Qed.

(** C5, amended.  With the empty search string (which lowercasing leaves
    empty) every record is sent, whatever its fields: the empty string occurs
    in every string, the empty one included. *)
Theorem empty_search_emits_every_record
        (ToLower : string -> string) (Hempty : ToLower "" = "")
        (doc : Node) (folder : string) (sent0 : list SearchResult) :
  (forall r, passesFilter ToLower r "" = true) /\
  sent (final (processNode ToLower doc (mkState "" folder [] sent0 false))) =
  match extractResult ToLower doc with
  | Return r => sent0 ++ [r]
  | Raise _ => sent0
  end.
Proof.
  assert (Hall : forall r, passesFilter ToLower r "" = true).
  { intros r. unfold passesFilter, hasSearchText.
    now rewrite Hempty, Contains_empty. }
  split; [exact Hall|].
  rewrite processNode_quiet.
  destruct (extractResult ToLower doc) as [r|e]; cbn [final sent];
    [now rewrite Hall | reflexivity].
Qed.

Lemma empty_search_emits_every_record_witness :
  ToLower_ascii "" = "" /\
  sent (final (processNode ToLower_ascii Doc.cityPack
                           (mkState "" "data" [] [] false))) =
  [mkResult "Cool World - City Pack" "http://b" "http://a"].
Proof.
  split; [reflexivity|].
  exact (proj2 (empty_search_emits_every_record
                  ToLower_ascii eq_refl Doc.cityPack "data" [])).
Defined.

(** ** Where the code departs from its specification *)

(** C2.  The test on the title does not cover the description block: for an embed
    without a title, a child with the description class is still scanned and
    its source link extracted, while the same link in a fields block is
    skipped. *)
Theorem description_block_not_gated :
  extractResult ToLower_ascii Doc.untitledDescription =
    Return (mkResult "" "" "http://x") /\
  extractResult ToLower_ascii Doc.untitledFields = Return emptyResult /\
  linkGuard (Doc.el "div" [Doc.class "chatlog__embed-description"] [])
            emptyResult = true /\
  linkGuard (Doc.el "div" [Doc.class "chatlog__embed-fields"] [])
            emptyResult = false.
Proof. repeat split. Qed.

(** C3.  When the folder cannot be listed, [Search] returns before
    [close(outputChannel)]: nothing is sent and the channel stays open,
    whatever the rest of the world is.  The same request on a folder that is
    listed ends with the channel closed. *)
Theorem Search_unlistable_folder_never_closes
        (ToLower : string -> string)
        (open : string -> bool) (read : string -> option string)
        (parse : string -> option Node) (join : string -> string -> string)
        (text folder : string) :
  Search ToLower (mkWorld (fun _ => None) open read parse join)
         (request text folder []) =
    Ok tt (mkState text folder [] [] false) /\
  closed (final (Search ToLower (Doc.corpus (Doc.page []))
                        (request text "nowhere" []))) = false /\
  closed (final (Search ToLower (Doc.corpus (Doc.page []))
                        (request text "data" []))) = true.
Proof.
  split; [reflexivity|]. split.
  - (* "nowhere" is not listed *)
    reflexivity.
  - (* "data" is listed; its one document holds no embed *)
    reflexivity.
Qed.

(** C4.  Extraction is not total: a "markdown preserve" element without a
    child makes [textChild.FirstChild.Data] dereference nil, an anchor
    without attributes makes [aContainer.Attr[0]] index an empty slice, and
    the panic ends the whole search with the channel still open. *)
Theorem extraction_panics (ToLower : string -> string) :
  extractResult ToLower Doc.emptyTitle = Raise NilDereference /\
  extractResult ToLower Doc.bareAnchor = Raise IndexOutOfRange /\
  Search ToLower (Doc.corpus (Doc.page [Doc.emptyTitle; Doc.cityPack]))
         (request "" "data" []) =
  Panic NilDereference (request "" "data" []).
Proof. repeat split. Qed.

(** C8.  The filter reads the package-level [searchText], not the copy taken
    by [Search]: two searches over the same corpus that both start from the
    text ["pack"] send different records when, in one of them, the text is
    overwritten after the copy was taken. *)
Theorem Search_filter_reads_shared_text :
  let W := Doc.corpus (Doc.page [Doc.cityPack]) in
  (exists s, load_searchText (request "pack" "data" []) = Ok "pack" s) /\
  (exists s, load_searchText (request "pack" "data" [None; Some "zzz"])
             = Ok "pack" s) /\
  sent (final (Search ToLower_ascii W (request "pack" "data" []))) =
    [mkResult "Cool World - City Pack" "http://b" "http://a"] /\
  sent (final (Search ToLower_ascii W
                      (request "pack" "data" [None; Some "zzz"]))) = [].
Proof.
  cbv zeta. split; [eexists; reflexivity|].
  split; [eexists; reflexivity|]. split; reflexivity.
Qed.

(** ** Anchors and links *)

Lemma Subsequence_app {A} (l1 l2 m1 m2 : list A) :
  Subsequence l1 l2 -> Subsequence m1 m2 -> Subsequence (l1 ++ m1) (l2 ++ m2).
Proof.
  intros H Hm. induction H as [l|x l1 l2 _ IH|x l1 l2 _ IH]; simpl.
  - induction l as [|y l IHl]; simpl; [exact Hm|].
    now apply Subsequence_drop.
  - now apply Subsequence_keep.
  - now apply Subsequence_drop.
Qed.

Lemma findNodetypeRecursively_eq (node : Node) (nodeType : string) :
  findNodetypeRecursively node nodeType =
  if NodeType_eqb (Type_ node) ElementNode && String.eqb (Data node) nodeType
  then [node]
  else flat_map (fun child => findNodetypeRecursively child nodeType)
                (Children node).
Proof. destruct node; reflexivity. Qed.

(** The anchors are collected in document order, and they are [<a>]
    elements. *)
Lemma findNodetypeRecursively_document_order (node : Node) :
  Subsequence (findNodetypeRecursively node "a") (preorder node) /\
  Forall (fun a => isAnchor a = true) (findNodetypeRecursively node "a").
Proof.
  induction node as [t d attrs cs IH] using Node_forall_ind.
  rewrite findNodetypeRecursively_eq. cbn [Type_ Data Children preorder].
  destruct (NodeType_eqb t ElementNode && String.eqb d "a") eqn:E.
  - split.
    + apply Subsequence_keep, Subsequence_nil.
    + constructor; [exact E | constructor].
  - enough (Subsequence
              (flat_map (fun child => findNodetypeRecursively child "a") cs)
              (flat_map preorder cs) /\
            Forall (fun a => isAnchor a = true)
              (flat_map (fun child => findNodetypeRecursively child "a") cs))
      as [H1 H2] by (split; [now apply Subsequence_drop | exact H2]).
    clear E. induction IH as [|c cs [Hc1 Hc2] _ [IH1 IH2]]; cbn [flat_map].
    + split; constructor.
    + split; [now apply Subsequence_app | now apply Forall_app].
Qed.

Section Anchors.

Variable ToLower : string -> string.

Lemma hasResurivelyText_eq (node : Node) (word : string) :
  hasResurivelyText ToLower node word =
  if NodeType_eqb (Type_ node) TextNode &&
     hasSearchText ToLower (Data node) word
  then true
  else existsb (fun child => hasResurivelyText ToLower child word)
               (Children node).
Proof. destruct node; reflexivity. Qed.

Lemma hasResurivelyText_spec (node : Node) (word : string) :
  hasResurivelyText ToLower node word = true <-> TextContains ToLower node word.
Proof.
  unfold TextContains.
  induction node as [t d attrs cs IH] using Node_forall_ind.
  rewrite hasResurivelyText_eq. cbn [Type_ Data Children preorder].
  assert (Hcs : existsb (fun child => hasResurivelyText ToLower child word) cs
                = true <->
                exists u, In u (flat_map preorder cs) /\ Type_ u = TextNode /\
                          Substring (ToLower word) (ToLower (Data u))).
  { rewrite existsb_exists. rewrite Forall_forall in IH. split.
    - intros [c [Hin Hc]]. apply (IH c Hin) in Hc as [u [Hu Hrest]].
      exists u. split; [|exact Hrest]. apply in_flat_map. now exists c.
    - intros [u [Hu Hrest]]. apply in_flat_map in Hu as [c [Hin Hu]].
      exists c. split; [exact Hin|]. apply (IH c Hin). now exists u. }
  destruct (NodeType_eqb t TextNode && hasSearchText ToLower d word) eqn:E.
  - split; [intros _ | reflexivity].
    apply andb_true_iff in E as [Et Ed].
    exists (mkNode t d attrs cs). split; [now left|].
    split; [now apply NodeType_eqb_eq | now apply Contains_spec].
  - rewrite Hcs. split.
    + intros [u [Hu Hrest]]. exists u. split; [now right | exact Hrest].
    + intros [u [[<-|Hu] [Ht Hsub]]]; [|now exists u].
      cbn [Type_ Data] in Ht, Hsub.
      apply NodeType_eqb_eq in Ht. apply Contains_spec in Hsub.
      unfold hasSearchText in E. rewrite Ht, Hsub in E. discriminate.
Qed.

Lemma LastMatchWins_skip (word : string) (a : Node) (rest : list Node)
      (before after : string) :
  ~ TextContains ToLower a word ->
  LastMatchWins ToLower word rest before after ->
  LastMatchWins ToLower word (a :: rest) before after.
Proof.
  intros Ha [[Hnone ->]|[pre [b [post [attr0 [attrs [-> H]]]]]]].
  - left. split; [|reflexivity]. intros x [<-|Hx]; [exact Ha | now apply Hnone].
  - right. exists (a :: pre), b, post, attr0, attrs. now split.
Qed.

Lemma LastMatchWins_hit (word : string) (a : Node) (rest : list Node)
      (attr0 : Attribute) (attrs : list Attribute) (before after : string) :
  TextContains ToLower a word -> Attr a = attr0 :: attrs ->
  LastMatchWins ToLower word rest (Val attr0) after ->
  LastMatchWins ToLower word (a :: rest) before after.
Proof.
  intros Ha Hattr [[Hnone ->]|[pre [b [post [attr1 [attrs1 [-> H]]]]]]].
  - right. exists [], a, rest, attr0, attrs. repeat split; auto.
  - right. exists (a :: pre), b, post, attr1, attrs1. now split.
Qed.

Lemma anchor_loop (anchorTags : list Node) :
  forall Result Result',
    efold (anchorBody ToLower) anchorTags Result = Return Result' ->
    Name Result' = Name Result /\
    LastMatchWins ToLower "Source" anchorTags (SourceLink Result) (SourceLink Result') /\
    LastMatchWins ToLower "Download" anchorTags
                  (DownloadLink Result) (DownloadLink Result').
Proof.
  induction anchorTags as [|a rest IH]; intros Result Result'; cbn [efold].
  - intros [= <-]. repeat split; left; split; auto.
  - unfold anchorBody at 1.
    destruct (Attr a) as [|attr0 attrs] eqn:Hattr; [discriminate|].
    cbn [ebind]. intros H. apply IH in H as [HN [HS HD]].
    destruct (hasResurivelyText ToLower a "Source") eqn:ES;
      destruct (hasResurivelyText ToLower a "Download") eqn:ED;
      cbn [Name SourceLink DownloadLink set_SourceLink set_DownloadLink]
        in HN, HS, HD;
      (split; [exact HN|]); split;
      first [ eapply LastMatchWins_hit;
              [apply hasResurivelyText_spec; eassumption
              | exact Hattr | eassumption]
            | apply LastMatchWins_skip;
              [rewrite <- hasResurivelyText_spec; congruence | assumption] ].
Qed.

(** C6.  Anchor-to-link assignment.  The anchors are collected in document
    order; when the loop over them ends without a panic, [SourceLink] is
    [hrefData] of the last anchor whose descendant text contains "Source"
    (case-insensitively) and is unchanged when there is none, and the same
    holds, independently, for [DownloadLink] and "Download"; an anchor whose
    text contains both words and that no later anchor overrides puts its
    [hrefData] in both fields.  [Name] is not touched. *)
Theorem anchor_link_assignment
        (anchorTags : list Node) (Result Result' : SearchResult) :
  efold (anchorBody ToLower) anchorTags Result = Return Result' ->
  Name Result' = Name Result /\
  LastMatchWins ToLower "Source" anchorTags (SourceLink Result) (SourceLink Result') /\
  LastMatchWins ToLower "Download" anchorTags
                (DownloadLink Result) (DownloadLink Result') /\
  (forall pre a post attr0 attrs,
      anchorTags = pre ++ a :: post ->
      Attr a = attr0 :: attrs ->
      hasResurivelyText ToLower a "Source" = true ->
      hasResurivelyText ToLower a "Download" = true ->
      (forall b, In b post ->
                 hasResurivelyText ToLower b "Source" = false /\
                 hasResurivelyText ToLower b "Download" = false) ->
      SourceLink Result' = Val attr0 /\ DownloadLink Result' = Val attr0) /\
  (forall linkContainer,
      Subsequence (findNodetypeRecursively linkContainer "a")
                  (preorder linkContainer)).
Proof.
  intros Hloop. destruct (anchor_loop _ _ _ Hloop) as [HN [HS HD]].
  split; [exact HN|]. split; [exact HS|]. split; [exact HD|]. split.
  - intros pre a post attr0 attrs -> Hattr Hs Hd Hpost.
    clear HN HS HD. revert Result Hloop.
    induction pre as [|p pre IHpre]; intros Result Hloop.
    + cbn [app efold] in Hloop. unfold anchorBody at 1 in Hloop.
      rewrite Hattr, Hs, Hd in Hloop. cbn [ebind] in Hloop.
      assert (Hkeep : forall R R',
                 efold (anchorBody ToLower) post R = Return R' ->
                 SourceLink R' = SourceLink R /\
                 DownloadLink R' = DownloadLink R).
      { clear Hloop. induction post as [|b post IHpost]; intros R R'.
        - intros [= <-]. now split.
        - cbn [efold]. unfold anchorBody at 1.
          destruct (Attr b); [discriminate|].
          destruct (Hpost b (or_introl eq_refl)) as [-> ->].
          cbn [ebind]. apply IHpost.
          intros c Hc. apply Hpost. now right. }
      apply Hkeep in Hloop as [-> ->]. now split.
    + cbn [app efold] in Hloop.
      destruct (anchorBody ToLower Result p) as [R1|e]; [|discriminate].
      cbn [ebind] in Hloop. exact (IHpre R1 Hloop).
  - intros linkContainer.
    apply findNodetypeRecursively_document_order.
Qed.

End Anchors.

Lemma anchor_link_assignment_witness :
  efold (anchorBody ToLower_ascii)
        [Doc.link "http://a" "Source";
         Doc.link "http://b" "Download";
         Doc.link "http://c" "Download Source Pack"]
        emptyResult
  = Return (mkResult "" "http://c" "http://c") /\
  LastMatchWins ToLower_ascii "Download"
        [Doc.link "http://a" "Source";
         Doc.link "http://b" "Download";
         Doc.link "http://c" "Download Source Pack"]
        "" "http://c".
Proof.
  split; [reflexivity|].
  exact (proj1 (proj2 (proj2
    (anchor_link_assignment ToLower_ascii
       [Doc.link "http://a" "Source";
        Doc.link "http://b" "Download";
        Doc.link "http://c" "Download Source Pack"]
       emptyResult (mkResult "" "http://c" "http://c") eq_refl)))).
Defined.

(** ** Document loader and orchestrator *)

Lemma bind_Ok {A B} (m : M A) (k : A -> M B) (s s' : State) (a : A) :
  m s = Ok a s' -> bind m k s = k a s'.
Proof. intros H. unfold bind. now rewrite H. Qed.

(** A loop that acts on the elements a selection keeps and skips the others
    is the loop over the selected values. *)
Lemma forM__selected {A B} (I : State -> Prop) (sel : A -> option B)
      (body : A -> M unit) (body' : B -> M unit) (l : list A) :
  (forall x s, I s ->
     body x s = match sel x with Some d => body' d s | None => Ok tt s end) ->
  (forall d, Preserves I (body' d)) ->
  forall s, I s ->
    forM_ body l s =
    forM_ body'
          (flat_map (fun x => match sel x with Some d => [d] | None => [] end)
                    l) s.
Proof.
  intros Hbody Hinv. induction l as [|x l IH]; intros s Hs; [reflexivity|].
  cbn [forM_ flat_map]. unfold bind at 1. rewrite (Hbody x s Hs).
  destruct (sel x) as [d|]; cbn [app forM_].
  - unfold bind at 1. specialize (Hinv d s Hs).
    destruct (body' d s) as [[] s'|e s']; [apply IH; exact Hinv | reflexivity].
  - apply IH, Hs.
Qed.

Lemma load_searchText_FolderIs (folder : string) :
  Preserves (FolderIs folder) load_searchText.
Proof.
  intros s H. unfold load_searchText. destruct (uiWrites s); exact H.
Qed.

Lemma send_FolderIs (folder : string) (r : SearchResult) :
  Preserves (FolderIs folder) (send r).
Proof. intros s H. unfold send. destruct (closed s); exact H. Qed.

(** An invariant kept by the two effects of the scan, a read of [searchText]
    and a send, is kept by [processNode] and by [processAllItems]. *)
Lemma processNode_Preserves (ToLower : string -> string)
      (P : State -> Prop) (doc : Node) :
  Preserves P load_searchText -> (forall r, Preserves P (send r)) ->
  Preserves P (processNode ToLower doc).
Proof.
  intros Hload Hsend. unfold processNode.
  apply Preserves_bind.
  { intros s H. unfold liftExc. now destruct (extractResult ToLower doc). }
  intros r.
  repeat (apply Preserves_bind; [exact Hload|];
          intros ?;
          match goal with
          | |- context [if ?b then _ else _] =>
              destruct b; [apply Hsend|]
          end).
  apply Preserves_ret.
Qed.

Lemma processAllItems_Preserves (ToLower : string -> string)
      (P : State -> Prop) (doc : Node) :
  Preserves P load_searchText -> (forall r, Preserves P (send r)) ->
  Preserves P (processAllItems ToLower doc).
Proof.
  intros Hload Hsend.
  induction doc as [t d a cs IH] using Node_forall_ind.
  intros s Hs. rewrite processAllItems_eq. revert s Hs.
  apply Preserves_bind.
  - destruct (isEmbedRoot (mkNode t d a cs));
      [now apply processNode_Preserves | apply Preserves_ret].
  - intros _. apply Preserves_forM_. exact IH.
Qed.

Lemma processAllItems_FolderIs (ToLower : string -> string) (folder : string)
      (doc : Node) :
  Preserves (FolderIs folder) (processAllItems ToLower doc).
Proof.
  apply processAllItems_Preserves;
    [apply load_searchText_FolderIs | apply send_FolderIs].
Qed.

(** The scan itself never closes the channel. *)
Lemma processAllItems_ChannelOpen (ToLower : string -> string) (doc : Node) :
  Preserves ChannelOpen (processAllItems ToLower doc).
Proof.
  apply processAllItems_Preserves.
  - intros s H. unfold load_searchText. destruct (uiWrites s); exact H.
  - intros r s H. unfold send. unfold ChannelOpen in H. rewrite H. reflexivity.
Qed.

Section Loader.

Variable ToLower : string -> string.
Variable W : World.

Lemma loadDocument_spec (folder file : string) (doc : Node) :
  loadDocument W folder file = Some doc <->
  (exists stem, file = (stem ++ ".html")%string) /\
  os_Open W (path_Join W folder file) = true /\
  exists content,
    os_ReadFile W (path_Join W folder file) = Some content /\
    html_Parse W content = Some doc.
Proof.
  unfold loadDocument. rewrite <- HasSuffix_spec.
  destruct (HasSuffix file ".html");
    [|split; [discriminate | intros [? _]; discriminate]].
  destruct (os_Open W (path_Join W folder file));
    [|split; [discriminate | intros [_ [? _]]; discriminate]].
  destruct (os_ReadFile W (path_Join W folder file)) as [content|].
  - split.
    + intros H. repeat split. now exists content.
    + intros [_ [_ [content' [[= <-] H]]]]. exact H.
  - split; [discriminate | intros [_ [_ [? [? _]]]]; discriminate].
Qed.

(** [Search], once the folder is listed: the locator runs over the documents
    of the listing, in order, and the channel is closed. *)
Lemma Search_listed (s : State) (files : list string) :
  os_ReadDir W (dataFolder s) = Some files ->
  Search ToLower W s =
  bind load_searchText
       (fun _ =>
          bind (forM_ (processAllItems ToLower)
                      (documents W (dataFolder s) files))
               (fun _ => close)) s.
Proof.
  intros Hdir. unfold Search.
  destruct (load_searchText s) as [copy s'|e s'] eqn:Hload.
  2:{ unfold load_searchText in Hload. destruct (uiWrites s); discriminate. }
  assert (Hfolder : FolderIs (dataFolder s) s').
  { change s' with (final (Ok copy s')). rewrite <- Hload.
    now apply load_searchText_FolderIs. }
  rewrite !(bind_Ok _ _ _ _ _ Hload).
  rewrite (bind_Ok load_dataFolder _ s' s' (dataFolder s') eq_refl).
  rewrite Hfolder, Hdir.
  apply bind_ext; [|reflexivity].
  apply (forM__selected (FolderIs (dataFolder s)));
    [|intros d; apply processAllItems_FolderIs | exact Hfolder].
  intros file s1 Hs1. unfold loadDocument.
  destruct (HasSuffix file ".html"); [|reflexivity].
  rewrite (bind_Ok load_dataFolder _ s1 s1 (dataFolder s1) eq_refl).
  rewrite Hs1. unfold searchFile, ParseHTML.
  destruct (os_Open W (path_Join W (dataFolder s) file)); [|reflexivity].
  destruct (os_ReadFile W (path_Join W (dataFolder s) file)); [|reflexivity].
  destruct (html_Parse W _); reflexivity.
Qed.

(** When the folder is listed and no entry yields a document (every file
    fails to open, to read or to parse), nothing is sent and the channel is
    closed. *)
Lemma Search_closes_without_documents (text folder : string)
      (files : list string) :
  os_ReadDir W folder = Some files ->
  documents W folder files = [] ->
  Search ToLower W (request text folder []) =
  Ok tt (mkState text folder [] [] true).
Proof.
  intros Hdir Hdocs.
  rewrite (Search_listed (request text folder []) files Hdir).
  cbn [dataFolder request]. rewrite Hdocs. reflexivity.
Qed.

(** When the folder is listed, a search that starts with an open channel and
    returns has closed it; one that panics has not. *)
Lemma Search_closes_unless_panic (s : State) (files : list string) :
  os_ReadDir W (dataFolder s) = Some files ->
  ChannelOpen s ->
  match Search ToLower W s with
  | Ok _ s' => closed s' = true
  | Panic _ s' => closed s' = false
  end.
Proof.
  intros Hdir Hopen. rewrite (Search_listed s files Hdir).
  destruct (load_searchText s) as [copy s1|e s1] eqn:Hload.
  2:{ unfold load_searchText in Hload. destruct (uiWrites s); discriminate. }
  assert (Hopen1 : ChannelOpen s1).
  { unfold load_searchText in Hload.
    destruct (uiWrites s); injection Hload as _ <-; exact Hopen. }
  rewrite (bind_Ok _ _ _ _ _ Hload). unfold bind.
  assert (Hloop := Preserves_forM_ ChannelOpen (processAllItems ToLower)
                     (documents W (dataFolder s) files)).
  specialize (Hloop ltac:(apply Forall_forall; intros d _;
                          apply processAllItems_ChannelOpen) s1 Hopen1).
  destruct (forM_ (processAllItems ToLower) _ s1) as [[] s2|e s2];
    cbn [final] in Hloop; [|exact Hloop].
  unfold close. unfold ChannelOpen in Hloop. now rewrite Hloop.
Qed.

(** C9.  Once the folder is listed, [Search] runs the locator over exactly
    the documents of the entries whose name ends in [.html] (a byte-wise,
    hence case-sensitive, suffix test), in listing order, and then closes the
    channel; an entry that cannot be opened (or read, or parsed) contributes
    no document and does not stop the entries after it. *)
Theorem Search_processes_html_entries (s : State) (files : list string) :
  os_ReadDir W (dataFolder s) = Some files ->
  Search ToLower W s =
    bind load_searchText
         (fun _ =>
            bind (forM_ (processAllItems ToLower)
                        (documents W (dataFolder s) files))
                 (fun _ => close)) s /\
  (forall before file after,
      documents W (dataFolder s) (before ++ file :: after) =
      documents W (dataFolder s) before ++
      match loadDocument W (dataFolder s) file with
      | Some doc => [doc]
      | None => []
      end ++
      documents W (dataFolder s) after) /\
  (forall file doc,
      loadDocument W (dataFolder s) file = Some doc <->
      (exists stem, file = (stem ++ ".html")%string) /\
      os_Open W (path_Join W (dataFolder s) file) = true /\
      exists content,
        os_ReadFile W (path_Join W (dataFolder s) file) = Some content /\
        html_Parse W content = Some doc) /\
  HasSuffix "A.HTML" ".html" = false.
Proof.
  intros Hdir. split; [now apply Search_listed|]. split; [|split].
  - intros before file after. unfold documents.
    now rewrite flat_map_app.
  - intros file doc. apply loadDocument_spec.
  - reflexivity.
Qed.

End Loader.

Lemma Search_processes_html_entries_witness :
  os_ReadDir (Doc.corpus (Doc.page [Doc.cityPack]))
             (dataFolder (request "pack" "data" []))
  = Some ["bad.html"; "notes.txt"; "A.HTML"; "a.html"] /\
  documents (Doc.corpus (Doc.page [Doc.cityPack])) "data"
            ["bad.html"; "notes.txt"; "A.HTML"; "a.html"]
  = [Doc.page [Doc.cityPack]] /\
  Search ToLower_ascii (Doc.corpus (Doc.page [Doc.cityPack]))
         (request "pack" "data" []) =
  Ok tt (mkState "pack" "data" []
                 [mkResult "Cool World - City Pack" "http://b" "http://a"]
                 true).
Proof.
  split; [reflexivity|]. split; [reflexivity|].
  rewrite (proj1 (Search_processes_html_entries
                    ToLower_ascii (Doc.corpus (Doc.page [Doc.cityPack]))
                    (request "pack" "data" [])
                    ["bad.html"; "notes.txt"; "A.HTML"; "a.html"] eq_refl)).
  reflexivity.
Defined.

(** * Further properties of the code *)

(** ** Tree searches *)

Lemma find_app {A} (p : A -> bool) (l1 l2 : list A) :
  find p (l1 ++ l2) =
  match find p l1 with
  | Some x => Some x
  | None => find p l2
  end.
Proof.
  induction l1 as [|x l1 IH]; [reflexivity|].
  cbn [app find]. now destruct (p x).
Qed.

(** [findNodeRecursively] returns the first node of the subtree, in document
    order, that carries the class, and nil exactly when no node does. *)
Theorem findNodeRecursively_first_in_document_order
        (node : Node) (className : string) :
  findNodeRecursively node className =
  find (fun n => hasClass n className) (preorder node).
Proof.
  induction node as [t d a cs IH] using Node_forall_ind.
  rewrite findNodeRecursively_eq. cbn [preorder find Children].
  destruct (hasClass (mkNode t d a cs) className); [reflexivity|].
  induction IH as [|c cs Hc _ IHcs]; [reflexivity|].
  cbn [firstFound flat_map]. rewrite find_app, <- Hc.
  destruct (findNodeRecursively c className); [reflexivity | exact IHcs].
Qed.

(** [hasResurivelyText] is the test "a text node contains the word,
    case-insensitively" over all the nodes of the subtree, the node itself
    included; the data of elements and the attributes are never looked at. *)
Theorem hasResurivelyText_any_text_node
        (ToLower : string -> string) (node : Node) (word : string) :
  hasResurivelyText ToLower node word =
  existsb (isMatchingText ToLower word) (preorder node).
Proof.
  induction node as [t d a cs IH] using Node_forall_ind.
  rewrite hasResurivelyText_eq. cbn [preorder existsb Children Type_ Data].
  unfold isMatchingText at 1. cbn [Type_ Data].
  destruct (NodeType_eqb t TextNode && hasSearchText ToLower d word);
    [reflexivity|].
  cbn [orb].
  induction IH as [|c cs Hc _ IHcs]; [reflexivity|].
  cbn [existsb flat_map]. now rewrite existsb_app, Hc, IHcs.
Qed.

Lemma preorder_self (n : Node) : In n (preorder n).
Proof. destruct n. now left. Qed.

Lemma preorder_eq (n : Node) :
  preorder n = n :: flat_map preorder (Children n).
Proof. destruct n; reflexivity. Qed.

Lemma preorder_child (n c x : Node) :
  In c (Children n) -> In x (preorder c) -> In x (preorder n).
Proof.
  intros Hc Hx. rewrite preorder_eq. right.
  apply in_flat_map. now exists c.
Qed.

Lemma preorder_trans (n : Node) :
  forall m x, In m (preorder n) -> In x (preorder m) -> In x (preorder n).
Proof.
  induction n as [t d a cs IH] using Node_forall_ind.
  intros m x Hm Hx. rewrite preorder_eq in Hm. destruct Hm as [<-|Hm];
    [exact Hx|].
  cbn [Children] in Hm. apply in_flat_map in Hm as [c [Hc Hm]].
  rewrite Forall_forall in IH.
  apply (preorder_child _ c); [exact Hc|]. now apply (IH c Hc m).
Qed.

Lemma Subsequence_In {A} (l1 l2 : list A) (x : A) :
  Subsequence l1 l2 -> In x l1 -> In x l2.
Proof.
  induction 1 as [l|y l1 l2 _ IH|y l1 l2 _ IH]; intros Hx.
  - destruct Hx.
  - destruct Hx as [<-|Hx]; [now left | right; auto].
  - right; auto.
Qed.


(** ** Record extraction *)

Section Extraction.

Variable ToLower : string -> string.

(** The title loop writes [Name] only, from a "markdown preserve" child. *)
Lemma title_loop (textChildren : list Node) :
  forall R R',
    efold titleBody textChildren R = Return R' ->
    SourceLink R' = SourceLink R /\ DownloadLink R' = DownloadLink R /\
    (Name R' = Name R \/
     exists textChild first rest,
       In textChild textChildren /\
       hasClass textChild "chatlog__markdown chatlog__markdown-preserve"
       = true /\
       Children textChild = first :: rest /\ Name R' = Data first).
Proof.
  induction textChildren as [|tc l IH]; intros R R'; cbn [efold].
  - intros [= <-]. repeat split. now left.
  - unfold titleBody at 1.
    destruct (hasClass tc "chatlog__markdown chatlog__markdown-preserve")
      eqn:Hmd.
    + destruct (Children tc) as [|first rest] eqn:Hch; [discriminate|].
      cbn [ebind]. intros H. apply IH in H as [HS [HD HN]].
      cbn [SourceLink DownloadLink Name set_Name] in HS, HD, HN.
      split; [exact HS|]. split; [exact HD|]. right.
      destruct HN as [HN|[tc' [f' [r' [Hin H]]]]].
      * exists tc, first, rest. repeat split; auto. now left.
      * exists tc', f', r'. split; [now right | exact H].
    + cbn [ebind]. intros H. apply IH in H as [HS [HD HN]].
      split; [exact HS|]. split; [exact HD|].
      destruct HN as [HN|[tc' [f' [r' [Hin H]]]]]; [now left|].
      right. exists tc', f', r'. split; [now right | exact H].
Qed.

(** The link container of a guarded child is a node of its subtree. *)
Lemma linkContainerOf_guarded (child : Node) (R : SearchResult) :
  linkGuard child R = true ->
  (hasClass child "chatlog__embed-description" = true \/
   hasClass child "chatlog__embed-fields" = true) /\
  exists linkContainer,
    linkContainerOf child = Some linkContainer /\
    In linkContainer (preorder child).
Proof.
  unfold linkGuard, linkContainerOf. intros Hguard.
  assert (Hclass : hasClass child "chatlog__embed-description" = true \/
                   hasClass child "chatlog__embed-fields" = true).
  { apply orb_true_iff in Hguard as [H|H]; [now left|].
    apply andb_true_iff in H as [H _]. now right. }
  split; [exact Hclass|].
  destruct (findNodeRecursively child "chatlog__embed-fields") as [n|] eqn:Ef.
  - exists n. split; [reflexivity|].
    now apply findNodeRecursively_sound in Ef.
  - destruct Hclass as [Hd|Hf].
    + exists child. rewrite (findNodeRecursively_root _ _ Hd).
      split; [reflexivity | apply preorder_self].
    + rewrite (findNodeRecursively_root _ _ Hf) in Ef. discriminate.
Qed.

Lemma anchorTags_in_subtree (linkContainer a : Node) :
  In a (findNodetypeRecursively linkContainer "a") ->
  In a (preorder linkContainer) /\ isAnchor a = true.
Proof.
  intros Ha.
  destruct (findNodetypeRecursively_document_order linkContainer) as [Hs Hf].
  split; [now apply (Subsequence_In _ _ _ Hs)|].
  rewrite Forall_forall in Hf. now apply Hf.
Qed.

Lemma LastMatchWins_LinkFrom (children : list Node) (child lc : Node)
      (word before after : string) :
  In child children ->
  (hasClass child "chatlog__embed-description" = true \/
   hasClass child "chatlog__embed-fields" = true) ->
  In lc (preorder child) ->
  LastMatchWins ToLower word (findNodetypeRecursively lc "a") before after ->
  LinkFrom ToLower children word before ->
  LinkFrom ToLower children word after.
Proof.
  intros Hchild Hclass Hlc [[_ ->]|[pre [a [post [attr0 [attrs H]]]]]] Hbefore;
    [exact Hbefore|].
  destruct H as [Heq [Htext [_ [Hattr ->]]]].
  assert (Ha : In a (findNodetypeRecursively lc "a")).
  { rewrite Heq. apply in_or_app. right. now left. }
  apply anchorTags_in_subtree in Ha as [Ha Hanchor].
  right. exists child, a, attr0, attrs. repeat split; auto.
  now apply (preorder_trans child lc).
Qed.

Lemma childBody_provenance (children : list Node) (child : Node)
      (R R' : SearchResult) :
  In child children ->
  childBody ToLower R child = Return R' ->
  NameFrom children (Name R) ->
  LinkFrom ToLower children "Source" (SourceLink R) ->
  LinkFrom ToLower children "Download" (DownloadLink R) ->
  NameFrom children (Name R') /\
  LinkFrom ToLower children "Source" (SourceLink R') /\
  LinkFrom ToLower children "Download" (DownloadLink R').
Proof.
  intros Hchild Hbody HN HS HD. unfold childBody in Hbody.
  assert (Htitle : exists R1,
             (if hasClass child "chatlog__embed-title"
              then efold titleBody (Children child) R else Return R)
             = Return R1 /\
             NameFrom children (Name R1) /\
             SourceLink R1 = SourceLink R /\
             DownloadLink R1 = DownloadLink R).
  { destruct (hasClass child "chatlog__embed-title") eqn:Ht.
    - destruct (efold titleBody (Children child) R) as [R1|e] eqn:E;
        [|discriminate].
      exists R1. split; [reflexivity|].
      apply title_loop in E as [ES [ED EN]]. repeat split; auto.
      destruct EN as [->|[tc [first [rest [Hin [Hmd [Hch Hname]]]]]]];
        [exact HN|].
      right. exists child, tc, first, rest. repeat split; auto.
    - exists R. repeat split; auto. }
  destruct Htitle as [R1 [E1 [HN1 [HS1 HD1]]]].
  rewrite E1 in Hbody. cbn [ebind] in Hbody.
  rewrite <- HS1 in HS. rewrite <- HD1 in HD.
  destruct (linkGuard child R1) eqn:G.
  - destruct (linkContainerOf_guarded child R1 G)
      as [Hclass [lc [Hlc Hin]]].
    rewrite Hlc in Hbody. cbn [anchorTagsOf ebind] in Hbody.
    apply anchor_loop in Hbody as [HN' [HS' HD']].
    rewrite HN'. split; [exact HN1|]. split.
    + exact (LastMatchWins_LinkFrom _ _ _ _ _ _ Hchild Hclass Hin HS' HS).
    + exact (LastMatchWins_LinkFrom _ _ _ _ _ _ Hchild Hclass Hin HD' HD).
  - injection Hbody as <-. auto.
Qed.

Lemma children_provenance (children cs : list Node) :
  incl cs children ->
  forall R R',
    efold (childBody ToLower) cs R = Return R' ->
    NameFrom children (Name R) ->
    LinkFrom ToLower children "Source" (SourceLink R) ->
    LinkFrom ToLower children "Download" (DownloadLink R) ->
    NameFrom children (Name R') /\
    LinkFrom ToLower children "Source" (SourceLink R') /\
    LinkFrom ToLower children "Download" (DownloadLink R').
Proof.
  induction cs as [|c cs IH]; intros Hincl R R'; cbn [efold].
  - intros [= <-]. auto.
  - destruct (childBody ToLower R c) as [R1|e] eqn:E; [|discriminate].
    cbn [ebind]. intros Hrest HN HS HD.
    destruct (childBody_provenance children c R R1
                (Hincl c (or_introl eq_refl)) E HN HS HD) as [HN1 [HS1 HD1]].
    apply (IH (fun x Hx => Hincl x (or_intror Hx)) R1 R' Hrest HN1 HS1 HD1).
Qed.

(** Every link of an extracted record is read off the document: [SourceLink]
    is empty or is [hrefData] of an anchor whose text contains "Source" and
    that lies under a child of the embed root carrying the description or the
    fields class, and likewise [DownloadLink] for "Download".  In particular
    an embed without such a child yields no link. *)
Theorem extractResult_links_from_anchors (doc : Node) (r : SearchResult) :
  extractResult ToLower doc = Return r ->
  LinkFrom ToLower (Children doc) "Source" (SourceLink r) /\
  LinkFrom ToLower (Children doc) "Download" (DownloadLink r) /\
  ((forall child, In child (Children doc) ->
                  hasClass child "chatlog__embed-description" = false /\
                  hasClass child "chatlog__embed-fields" = false) ->
   SourceLink r = "" /\ DownloadLink r = "").
Proof.
  intros H. unfold extractResult in H.
  destruct (children_provenance (Children doc) (Children doc)
              (incl_refl _) emptyResult r H)
    as [_ [HS HD]]; try now left.
  split; [exact HS|]. split; [exact HD|].
  intros Hnone.
  assert (Hempty : forall word link,
             LinkFrom ToLower (Children doc) word link -> link = "").
  { intros word link [->|[child [a [attr0 [attrs [Hin [Hclass _]]]]]]];
      [reflexivity|].
    destruct (Hnone child Hin) as [Hd Hf].
    destruct Hclass as [Hc|Hc]; congruence. }
  split; eapply Hempty; eassumption.
Qed.

(** The [Name] of an extracted record is empty or is the [Data] of the first
    child of a "markdown preserve" child of a title child of the embed root,
    whatever the type of that first child. *)
Theorem extractResult_name_from_title (doc : Node) (r : SearchResult) :
  extractResult ToLower doc = Return r ->
  NameFrom (Children doc) (Name r).
Proof.
  intros H. unfold extractResult in H.
  destruct (children_provenance (Children doc) (Children doc)
              (incl_refl _) emptyResult r H)
    as [HN _]; try now left.
  exact HN.
Qed.

End Extraction.

Lemma extractResult_links_from_anchors_witness :
  extractResult ToLower_ascii Doc.cityPack
  = Return (mkResult "Cool World - City Pack" "http://b" "http://a") /\
  LinkFrom ToLower_ascii (Children Doc.cityPack) "Download" "http://b".
Proof.
  split; [reflexivity|].
  exact (proj1 (proj2 (extractResult_links_from_anchors
                         ToLower_ascii Doc.cityPack _ eq_refl))).
Defined.

Lemma extractResult_name_from_title_witness :
  extractResult ToLower_ascii Doc.cityPack
  = Return (mkResult "Cool World - City Pack" "http://b" "http://a") /\
  NameFrom (Children Doc.cityPack) "Cool World - City Pack".
Proof.
  split; [reflexivity|].
  exact (extractResult_name_from_title ToLower_ascii Doc.cityPack _ eq_refl).
Defined.

Section ExtractionSafety.

Variable ToLower : string -> string.

Lemma title_loop_returns (textChildren : list Node) :
  (forall textChild,
      In textChild textChildren ->
      hasClass textChild "chatlog__markdown chatlog__markdown-preserve" = true ->
      Children textChild <> []) ->
  forall R, exists R', efold titleBody textChildren R = Return R'.
Proof.
  induction textChildren as [|tc l IH]; intros Hok R; cbn [efold].
  - now exists R.
  - unfold titleBody at 1.
    destruct (hasClass tc "chatlog__markdown chatlog__markdown-preserve")
      eqn:Hmd.
    + destruct (Children tc) as [|first rest] eqn:Hch.
      * exfalso. apply (Hok tc (or_introl eq_refl) Hmd Hch).
      * cbn [ebind]. apply IH. intros x Hx. apply Hok. now right.
    + cbn [ebind]. apply IH. intros x Hx. apply Hok. now right.
Qed.

Lemma anchor_loop_returns (anchorTags : list Node) :
  (forall a, In a anchorTags -> Attr a <> []) ->
  forall R, exists R', efold (anchorBody ToLower) anchorTags R = Return R'.
Proof.
  induction anchorTags as [|a l IH]; intros Hok R; cbn [efold].
  - now exists R.
  - unfold anchorBody at 1.
    destruct (Attr a) as [|attr0 attrs] eqn:Hattr.
    + exfalso. now apply (Hok a (or_introl eq_refl)).
    + cbn [ebind]. apply IH. intros x Hx. apply Hok. now right.
Qed.

Lemma childBody_returns (doc child : Node) (R : SearchResult) :
  Extractable doc -> In child (Children doc) ->
  exists R', childBody ToLower R child = Return R'.
Proof.
  intros [Htitle Hanchor] Hchild. unfold childBody.
  assert (H1 : exists R1,
             (if hasClass child "chatlog__embed-title"
              then efold titleBody (Children child) R else Return R)
             = Return R1).
  { destruct (hasClass child "chatlog__embed-title") eqn:Ht;
      [|now exists R].
    apply title_loop_returns. intros tc Hin Hmd.
    exact (Htitle child tc Hchild Ht Hin Hmd). }
  destruct H1 as [R1 ->]. cbn [ebind].
  destruct (linkGuard child R1) eqn:G; [|now exists R1].
  destruct (linkContainerOf_guarded child R1 G) as [_ [lc [-> Hlc]]].
  cbn [anchorTagsOf ebind]. apply anchor_loop_returns.
  intros a Ha. apply anchorTags_in_subtree in Ha as [Ha Hisa].
  apply Hanchor; [|exact Hisa].
  apply (preorder_child doc child); [exact Hchild|].
  now apply (preorder_trans child lc).
Qed.

(** Extraction returns a record, without a panic, for every embed root in
    which each "markdown preserve" child of a title child has a child and
    each anchor has an attribute. *)
Theorem extractResult_returns_when_extractable (doc : Node) :
  Extractable doc -> exists r, extractResult ToLower doc = Return r.
Proof.
  intros Hdoc. unfold extractResult.
  assert (H : forall cs, incl cs (Children doc) ->
                         forall R, exists R',
                             efold (childBody ToLower) cs R = Return R').
  { induction cs as [|c cs IH]; intros Hincl R; cbn [efold].
    - now exists R.
    - destruct (childBody_returns doc c R Hdoc (Hincl c (or_introl eq_refl)))
        as [R1 ->].
      cbn [ebind]. apply IH. intros x Hx. apply Hincl. now right. }
  apply H, incl_refl.
Qed.

(** A child that carries neither the title nor the description class leaves
    a record without a name as it is. *)
Lemma childBody_skips_before_title (R : SearchResult) (child : Node) :
  Name R = "" ->
  hasClass child "chatlog__embed-title" = false ->
  hasClass child "chatlog__embed-description" = false ->
  childBody ToLower R child = Return R.
Proof.
  intros HN Ht Hd. unfold childBody, linkGuard.
  rewrite Ht. cbn [ebind]. rewrite Hd, HN.
  cbn [String.eqb negb orb]. now rewrite andb_false_r.
Qed.

(** The children of an embed root are read in one pass: the children that
    come before the first child carrying the title or the description class
    contribute nothing, fields block and links included.  The record is the
    one of the embed without them. *)
Theorem children_before_title_are_ignored
        (t : NodeType) (d : string) (attrs : list Attribute)
        (before rest : list Node) :
  Forall (fun child =>
            hasClass child "chatlog__embed-title" = false /\
            hasClass child "chatlog__embed-description" = false) before ->
  extractResult ToLower (mkNode t d attrs (before ++ rest)) =
  extractResult ToLower (mkNode t d attrs rest).
Proof.
  unfold extractResult. cbn [Children].
  induction 1 as [|c before [Ht Hd] _ IH]; [reflexivity|].
  cbn [app efold].
  now rewrite (childBody_skips_before_title emptyResult c eq_refl Ht Hd).
Qed.

End ExtractionSafety.

Lemma extractResult_returns_when_extractable_witness :
  Extractable Doc.cityPack /\
  exists r, extractResult ToLower_ascii Doc.cityPack = Return r.
Proof.
  assert (H : Extractable Doc.cityPack).
  { split.
    - intros child tc Hc Ht Htc Hmd.
      cbn in Hc. destruct Hc as [<-|[<-|[]]]; [|discriminate].
      cbn in Htc. destruct Htc as [<-|[]]. discriminate.
    - intros a Ha Hisa. cbn in Ha.
      repeat (destruct Ha as [<-|Ha]; [try discriminate|]);
        try destruct Ha.
      all: cbn; discriminate. }
  split; [exact H|].
  exact (extractResult_returns_when_extractable ToLower_ascii Doc.cityPack H).
Defined.

Lemma children_before_title_are_ignored_witness :
  Forall (fun child =>
            hasClass child "chatlog__embed-title" = false /\
            hasClass child "chatlog__embed-description" = false)
         [Doc.el "div" [Doc.class "chatlog__embed-fields"]
            [Doc.el "div" [Doc.class "chatlog__embed-field"]
               [Doc.link "http://a" "Source";
                Doc.link "http://b" "Download"]]] /\
  extractResult ToLower_ascii Sample.fieldsFirst =
  Return (mkResult "Cool World - City Pack" "" "").
Proof.
  assert (H : Forall (fun child =>
            hasClass child "chatlog__embed-title" = false /\
            hasClass child "chatlog__embed-description" = false)
         [Doc.el "div" [Doc.class "chatlog__embed-fields"]
            [Doc.el "div" [Doc.class "chatlog__embed-field"]
               [Doc.link "http://a" "Source";
                Doc.link "http://b" "Download"]]]).
  { constructor; [split; reflexivity | constructor]. }
  split; [exact H|].
  exact (eq_trans
           (children_before_title_are_ignored
              ToLower_ascii ElementNode "div"
              [Doc.class "chatlog__embed-text"] _
              [Doc.title "Cool World - City Pack"] H)
           eq_refl).
Defined.

(** ** The search as a whole *)

Lemma string_app_assoc (a b c : string) :
  ((a ++ b) ++ c)%string = (a ++ b ++ c)%string.
Proof. induction a; simpl; congruence. Qed.

Lemma string_app_nil_r (a : string) : (a ++ "")%string = a.
Proof. induction a; simpl; congruence. Qed.

Lemma Substring_trans (a b c : string) :
  Substring a b -> Substring b c -> Substring a c.
Proof.
  intros [p [q ->]] [p' [q' ->]].
  exists (p' ++ p)%string, (q ++ q')%string.
  now rewrite !string_app_assoc.
Qed.

Lemma Subsequence_filter {A} (p q : A -> bool) (l : list A) :
  (forall x, p x = true -> q x = true) ->
  Subsequence (filter p l) (filter q l).
Proof.
  intros Hpq. induction l as [|x l IH]; cbn [filter]; [constructor|].
  destruct (p x) eqn:Ep.
  - rewrite (Hpq x Ep). now apply Subsequence_keep.
  - destruct (q x); [now apply Subsequence_drop | exact IH].
Qed.

Section WholeSearch.

Variable ToLower : string -> string.
Variable W : World.

(** The locator, as a loop over the embed roots of the document. *)
Lemma processAllItems_run (doc : Node) :
  forall s, processAllItems ToLower doc s =
            forM_ (processNode ToLower) (filter isEmbedRoot (preorder doc)) s.
Proof.
  induction doc as [t d a cs IH] using Node_forall_ind. intros s.
  rewrite processAllItems_eq, preorder_eq. cbn [filter Children].
  assert (Hcs : forall s',
             forM_ (processAllItems ToLower) cs s' =
             forM_ (processNode ToLower)
                   (filter isEmbedRoot (flat_map preorder cs)) s').
  { induction IH as [|c cs Hc _ IHcs]; intros s'; [reflexivity|].
    cbn [flat_map forM_]. rewrite filter_app, forM__app.
    apply bind_ext; [apply Hc | intros _ s''; apply IHcs]. }
  destruct (isEmbedRoot (mkNode t d a cs)); cbn [forM_].
  - apply bind_ext; [reflexivity | intros _ s'; apply Hcs].
  - unfold bind, ret. apply Hcs.
Qed.

Lemma documents_run (docs : list Node) :
  forall s, forM_ (processAllItems ToLower) docs s =
            forM_ (processNode ToLower) (embedsOf docs) s.
Proof.
  induction docs as [|doc docs IH]; intros s; [reflexivity|].
  unfold embedsOf. cbn [flat_map forM_]. rewrite forM__app.
  apply bind_ext; [apply processAllItems_run | intros _ s'; apply IH].
Qed.

(** The loop over the embed roots when nobody writes [searchText]: the
    records extracted before the first panic, filtered, are sent. *)
Lemma embeds_quiet_run (text folder : string) (embeds : list Node) :
  forall sent0,
    forM_ (processNode ToLower) embeds (mkState text folder [] sent0 false) =
    match extractAll ToLower embeds with
    | (rs, None) =>
        Ok tt (mkState text folder []
                 (sent0 ++ filter (fun r => passesFilter ToLower r text) rs)
                 false)
    | (rs, Some e) =>
        Panic e (mkState text folder []
                   (sent0 ++ filter (fun r => passesFilter ToLower r text) rs)
                   false)
    end.
Proof.
  induction embeds as [|embed rest IH]; intros sent0.
  - cbn. now rewrite app_nil_r.
  - cbn [forM_ extractAll]. unfold bind. rewrite processNode_quiet.
    destruct (extractResult ToLower embed) as [r|e].
    + rewrite IH. destruct (extractAll ToLower rest) as [rs [e|]];
        cbn [filter]; destruct (passesFilter ToLower r text);
        now rewrite <- ?app_assoc.
    + cbn. now rewrite app_nil_r.
Qed.

Lemma Search_unlisted (text folder : string) :
  os_ReadDir W folder = None ->
  Search ToLower W (request text folder []) = Ok tt (request text folder []).
Proof.
  intros Hdir. unfold Search, bind. cbn. now rewrite Hdir.
Qed.

Lemma Search_quiet_run (text folder : string) (files : list string) :
  os_ReadDir W folder = Some files ->
  Search ToLower W (request text folder []) =
  match extractAll ToLower (embedsOf (documents W folder files)) with
  | (rs, None) =>
      Ok tt (mkState text folder []
               (filter (fun r => passesFilter ToLower r text) rs) true)
  | (rs, Some e) =>
      Panic e (mkState text folder []
                 (filter (fun r => passesFilter ToLower r text) rs) false)
  end.
Proof.
  intros Hdir.
  rewrite (Search_listed ToLower W (request text folder []) files Hdir).
  unfold bind. cbn [load_searchText request uiWrites searchText dataFolder].
  rewrite documents_run.
  rewrite (embeds_quiet_run text folder _ []).
  now destruct (extractAll ToLower (embedsOf (documents W folder files)))
    as [rs [e|]].
Qed.

(** A search during which nobody writes [searchText] is extraction followed
    by the filter: the records sent are, in order, the records of the embed
    roots of the listed documents that pass the filter, one at most per embed
    root, up to the first embed whose extraction panics; the channel is
    closed if and only if there is no such embed. *)
Theorem Search_is_filtered_extraction
        (text folder : string) (files : list string) :
  os_ReadDir W folder = Some files ->
  Search ToLower W (request text folder []) =
  match extractAll ToLower (embedsOf (documents W folder files)) with
  | (rs, None) =>
      Ok tt (mkState text folder []
               (filter (fun r => passesFilter ToLower r text) rs) true)
  | (rs, Some e) =>
      Panic e (mkState text folder []
                 (filter (fun r => passesFilter ToLower r text) rs) false)
  end.
Proof. exact (Search_quiet_run text folder files). Qed.

Lemma passesFilter_narrow (r : SearchResult) (text text' : string) :
  Substring (ToLower text') (ToLower text) ->
  passesFilter ToLower r text = true -> passesFilter ToLower r text' = true.
Proof.
  intros Hsub. rewrite !passesFilter_spec. unfold Matches.
  intros [H|[H|H]]; [left | right; left | right; right];
    exact (Substring_trans _ _ _ Hsub H).
Qed.

(** Shortening the query never loses a result: when [text'] occurs in
    [text] (both lowercased), the records sent for [text] are sent for
    [text'] too, in the same order. *)
Theorem Search_narrower_query (text text' folder : string) :
  Substring (ToLower text') (ToLower text) ->
  Subsequence
    (sent (final (Search ToLower W (request text folder []))))
    (sent (final (Search ToLower W (request text' folder [])))).
Proof.
  intros Hsub. destruct (os_ReadDir W folder) as [files|] eqn:Hdir.
  - rewrite !(Search_quiet_run _ folder files Hdir).
    destruct (extractAll ToLower (embedsOf (documents W folder files)))
      as [rs [e|]]; cbn [final sent];
      apply Subsequence_filter; intros r; now apply passesFilter_narrow.
  - rewrite !(Search_unlisted _ folder Hdir). constructor.
Qed.

(** A document without an embed root is scanned without any effect: nothing
    is sent, nothing panics, and the state is the one before, whatever it
    is. *)
Theorem processAllItems_without_embed (doc : Node) (s : State) :
  filter isEmbedRoot (preorder doc) = [] ->
  processAllItems ToLower doc s = Ok tt s.
Proof. intros H. now rewrite processAllItems_run, H. Qed.

End WholeSearch.

Lemma Search_is_filtered_extraction_witness :
  os_ReadDir (Doc.corpus (Doc.page [Doc.untitledFields; Doc.cityPack])) "data"
  = Some ["bad.html"; "notes.txt"; "A.HTML"; "a.html"] /\
  Search ToLower_ascii
         (Doc.corpus (Doc.page [Doc.untitledFields; Doc.cityPack]))
         (request "pack" "data" []) =
  Ok tt (mkState "pack" "data" []
                 [mkResult "Cool World - City Pack" "http://b" "http://a"]
                 true).
Proof.
  split; [reflexivity|].
  exact (Search_is_filtered_extraction
           ToLower_ascii
           (Doc.corpus (Doc.page [Doc.untitledFields; Doc.cityPack]))
           "pack" "data" _ eq_refl).
Defined.

Lemma Search_narrower_query_witness :
  Substring (ToLower_ascii "PACK") (ToLower_ascii "City Pack") /\
  Subsequence
    (sent (final (Search ToLower_ascii (Doc.corpus (Doc.page [Doc.cityPack]))
                         (request "City Pack" "data" []))))
    (sent (final (Search ToLower_ascii (Doc.corpus (Doc.page [Doc.cityPack]))
                         (request "PACK" "data" [])))).
Proof.
  assert (H : Substring (ToLower_ascii "PACK") (ToLower_ascii "City Pack")).
  { exists "city "%string, ""%string. reflexivity. }
  split; [exact H|].
  exact (Search_narrower_query
           ToLower_ascii (Doc.corpus (Doc.page [Doc.cityPack]))
           "City Pack" "PACK" "data" H).
Defined.

Lemma processAllItems_without_embed_witness :
  filter isEmbedRoot (preorder Sample.plainPage) = [] /\
  processAllItems ToLower_ascii Sample.plainPage
                  (request "pack" "data" [Some "zzz"])
  = Ok tt (request "pack" "data" [Some "zzz"]).
Proof.
  split; [reflexivity|].
  exact (processAllItems_without_embed
           ToLower_ascii Sample.plainPage _ eq_refl).
Defined.

(** ** Use of the channel *)

Section Channel.

Variable ToLower : string -> string.
Variable W : World.

Lemma efold_raises {A B} (P : RuntimeError -> Prop) (body : B -> A -> Exc B)
      (l : list A) :
  (forall acc x e, In x l -> body acc x = Raise e -> P e) ->
  forall acc e, efold body l acc = Raise e -> P e.
Proof.
  induction l as [|x l IH]; intros Hbody acc e; cbn [efold];
    [discriminate|].
  destruct (body acc x) as [acc'|e'] eqn:E; cbn [ebind].
  - apply IH. intros a y e0 Hy. apply Hbody. now right.
  - intros [= <-]. apply (Hbody acc x e' (or_introl eq_refl) E).
Qed.

(** Extraction panics with a nil dereference or an index out of range only. *)
Lemma extractResult_raises (doc : Node) (e : RuntimeError) :
  extractResult ToLower doc = Raise e ->
  e = NilDereference \/ e = IndexOutOfRange.
Proof.
  unfold extractResult.
  apply (efold_raises (fun e => e = NilDereference \/ e = IndexOutOfRange)).
  intros R child e0 _. unfold childBody.
  destruct (if hasClass child "chatlog__embed-title"
            then efold titleBody (Children child) R else Return R)
    as [R1|e1] eqn:E1; cbn [ebind].
  - destruct (linkGuard child R1); [|discriminate].
    destruct (linkContainerOf child) as [lc|]; cbn [anchorTagsOf ebind].
    + apply (efold_raises
               (fun e => e = NilDereference \/ e = IndexOutOfRange)).
      intros R2 a e2 _. unfold anchorBody.
      destruct (Attr a); [intros [= <-]; now right | discriminate].
    + intros [= <-]. now left.
  - intros [= <-].
    destruct (hasClass child "chatlog__embed-title"); [|discriminate].
    revert E1.
    apply (efold_raises
             (fun e => e = NilDereference \/ e = IndexOutOfRange)).
    intros R2 tc e2 _. unfold titleBody.
    destruct (hasClass tc _); [|discriminate].
    destruct (Children tc); [intros [= <-]; now left | discriminate].
Qed.

Lemma ChannelSafe_ret {A} (a : A) : ChannelSafe (ret a).
Proof. intros s H. exact H. Qed.

Lemma ChannelSafe_bind {A B} (m : M A) (k : A -> M B) :
  ChannelSafe m -> (forall a, ChannelSafe (k a)) -> ChannelSafe (bind m k).
Proof.
  intros Hm Hk s H. unfold bind. specialize (Hm s H).
  destruct (m s) as [a s'|e s']; [apply Hk|]; exact Hm.
Qed.

Lemma ChannelSafe_forM_ {A} (body : A -> M unit) (l : list A) :
  (forall x, ChannelSafe (body x)) -> ChannelSafe (forM_ body l).
Proof.
  intros Hbody. induction l as [|x l IH]; cbn [forM_].
  - apply ChannelSafe_ret.
  - apply ChannelSafe_bind; [apply Hbody | intros _; exact IH].
Qed.

Lemma ChannelSafe_load_searchText : ChannelSafe load_searchText.
Proof. intros s H. unfold load_searchText. destruct (uiWrites s); exact H. Qed.

Lemma ChannelSafe_send (r : SearchResult) : ChannelSafe (send r).
Proof.
  intros s H. unfold send. unfold ChannelOpen in H. rewrite H. reflexivity.
Qed.

Lemma ChannelSafe_processNode (doc : Node) :
  ChannelSafe (processNode ToLower doc).
Proof.
  unfold processNode. apply ChannelSafe_bind.
  { intros s H. unfold liftExc.
    destruct (extractResult ToLower doc) as [r|e] eqn:E; [exact H|].
    split; [exact H | now apply (extractResult_raises doc)]. }
  intros r.
  repeat (apply ChannelSafe_bind; [apply ChannelSafe_load_searchText|];
          intros ?;
          match goal with
          | |- context [if ?b then _ else _] =>
              destruct b; [apply ChannelSafe_send|]
          end).
  apply ChannelSafe_ret.
Qed.

Lemma ChannelSafe_processAllItems (doc : Node) :
  ChannelSafe (processAllItems ToLower doc).
Proof.
  induction doc as [t d a cs IH] using Node_forall_ind.
  intros s Hs. rewrite processAllItems_eq. revert s Hs.
  apply ChannelSafe_bind.
  - destruct (isEmbedRoot (mkNode t d a cs));
      [apply ChannelSafe_processNode | apply ChannelSafe_ret].
  - intros _. rewrite Forall_forall in IH.
    cbn [Children]. induction cs as [|c cs IHcs]; cbn [forM_].
    + apply ChannelSafe_ret.
    + apply ChannelSafe_bind; [apply IH; now left|].
      intros _. apply IHcs. intros x Hx. apply IH. now right.
Qed.

Lemma ChannelSafe_searchFile (fileName text : string) :
  ChannelSafe (searchFile ToLower W fileName text).
Proof.
  unfold searchFile, ParseHTML.
  destruct (os_Open W fileName); [|apply ChannelSafe_ret].
  destruct (os_ReadFile W fileName); [|apply ChannelSafe_ret].
  destruct (html_Parse W _); [|apply ChannelSafe_ret].
  apply ChannelSafe_processAllItems.
Qed.

(** How [Search] ends when it starts with the channel open, whatever the
    other goroutine writes meanwhile. *)
Lemma Search_ends (s : State) :
  ChannelOpen s ->
  match Search ToLower W s with
  | Ok _ s' =>
      sent s' = sent s /\ closed s' = false /\
      os_ReadDir W (dataFolder s) = None
      \/
      closed s' = true /\ os_ReadDir W (dataFolder s) <> None
  | Panic e s' =>
      closed s' = false /\ (e = NilDereference \/ e = IndexOutOfRange) /\
      os_ReadDir W (dataFolder s) <> None
  end.
Proof.
  intros Hopen. unfold Search.
  destruct (load_searchText s) as [copy s1|e s1] eqn:Hload.
  2:{ unfold load_searchText in Hload. destruct (uiWrites s); discriminate. }
  assert (H1 : ChannelOpen s1 /\ dataFolder s1 = dataFolder s /\
               sent s1 = sent s).
  { unfold load_searchText in Hload.
    destruct (uiWrites s); injection Hload as _ <-; auto. }
  destruct H1 as [Hopen1 [Hfolder Hsent]].
  rewrite (bind_Ok _ _ _ _ _ Hload).
  rewrite (bind_Ok load_dataFolder _ s1 s1 (dataFolder s1) eq_refl).
  rewrite Hfolder.
  destruct (os_ReadDir W (dataFolder s)) as [files|].
  - unfold bind at 1.
    match goal with
    | |- context [forM_ ?body files s1] =>
        assert (Hloop : ChannelSafe (forM_ body files))
    end.
    { apply ChannelSafe_forM_. intros file.
      destruct (HasSuffix file ".html"); [|apply ChannelSafe_ret].
      apply ChannelSafe_bind; [intros s0 H0; exact H0|].
      intros folder'. apply ChannelSafe_searchFile. }
    specialize (Hloop s1 Hopen1).
    match goal with
    | |- context [forM_ ?body files s1] =>
        destruct (forM_ body files s1) as [[] s2|e s2]
    end.
    + unfold close. unfold ChannelOpen in Hloop. rewrite Hloop.
      right. split; [reflexivity | discriminate].
    + destruct Hloop as [Hc He]. repeat split; auto. discriminate.
  - left. repeat split; auto.
Qed.

(** [Search] uses the channel correctly under every interleaving with the
    writes to [searchText]: started on an open channel it never sends on a
    closed channel and never closes twice (the only panics are those of
    record extraction), it returns with the channel closed exactly when the
    folder could be listed, and after a panic the channel is still open. *)
Theorem Search_channel_discipline (s : State) :
  ChannelOpen s ->
  match Search ToLower W s with
  | Ok _ s' => closed s' = true <-> os_ReadDir W (dataFolder s) <> None
  | Panic e s' =>
      closed s' = false /\ (e = NilDereference \/ e = IndexOutOfRange)
  end.
Proof.
  intros Hopen. assert (H := Search_ends s Hopen).
  destruct (Search ToLower W s) as [[] s'|e s'].
  - destruct H as [[_ [Hc Hdir]]|[Hc Hdir]].
    + rewrite Hc, Hdir. split; [discriminate | intros F; now elim F].
    + split; auto.
  - destruct H as [Hc [He _]]. auto.
Qed.

End Channel.

Lemma Search_channel_discipline_witness :
  ChannelOpen (request "pack" "data" [None; Some "zzz"]) /\
  closed (final (Search ToLower_ascii (Doc.corpus (Doc.page [Doc.cityPack]))
                        (request "pack" "data" [None; Some "zzz"]))) = true.
Proof.
  split; [reflexivity|].
  assert (H := Search_channel_discipline
                 ToLower_ascii (Doc.corpus (Doc.page [Doc.cityPack]))
                 (request "pack" "data" [None; Some "zzz"]) eq_refl).
  cbv in H. cbv. apply H. discriminate.
Defined.

(** ** What the result list shows *)

Lemma showResult_after_first (rs : list SearchResult) :
  forall ui,
    startedSearching ui = false ->
    fold_left showResult rs ui =
    mkUI (resultList ui ++ resultLines rs) (inputText ui) (inputDisabled ui)
         false.
Proof.
  induction rs as [|r rs IH]; intros [list text dis started] Hs;
    cbn [startedSearching] in Hs; subst started.
  - cbn. now rewrite string_app_nil_r.
  - cbn [fold_left]. rewrite IH by reflexivity.
    cbn [showResult startedSearching resultList inputText inputDisabled
         resultLines fold_right].
    now rewrite string_app_assoc.
Qed.

Lemma showResult_from_banner (rs : list SearchResult) (ui : UI) :
  startedSearching ui = true ->
  fold_left showResult rs ui =
  match rs with
  | [] => ui
  | _ :: _ => mkUI (resultLines rs) (inputText ui) (inputDisabled ui) false
  end.
Proof.
  intros Hs. destruct rs as [|r rs]; [reflexivity|].
  cbn [fold_left]. rewrite showResult_after_first by reflexivity.
  unfold showResult. rewrite Hs. reflexivity.
Qed.

Section Display.

Variable ToLower : string -> string.
Variable W : World.

(** [ProcessInput] in terms of the outcome of [Search]. *)
Lemma ProcessInput_shows (s : State) (ui : UI) :
  let o := Search ToLower W
                  (request (searchText s) (dataFolder s) (uiWrites s)) in
  let banner := ("Searching: '" ++ searchText s ++ "' ...")%string in
  let shown := match sent (final o) with
               | [] => banner
               | _ :: _ => resultLines (sent (final o))
               end in
  ProcessInput ToLower W s ui =
  (o,
   if closed (final o)
   then mkUI (shown ++ "Done!") "" false
             (match sent (final o) with [] => true | _ :: _ => false end)
   else mkUI shown (inputText ui) (inputDisabled ui)
             (match sent (final o) with [] => true | _ :: _ => false end)).
Proof.
  cbv zeta. unfold ProcessInput. cbv zeta. f_equal.
  fold (final (Search ToLower W
                      (request (searchText s) (dataFolder s) (uiWrites s)))).
  unfold receiveAll. rewrite showResult_from_banner by reflexivity.
  destruct (sent (final (Search ToLower W _))) as [|r rs];
    destruct (closed (final (Search ToLower W _))); reflexivity.
Qed.

(** What the user sees once every update has run: the banner is replaced by
    the first result, each record sent is one line (name, source link and
    download link separated by tabs) in the order sent, and ["Done!"] is
    appended, the input field emptied and enabled again, only if the channel
    was closed; with no result the banner stays in front of ["Done!"]. *)
Theorem ProcessInput_display (s : State) (ui : UI) :
  let o := Search ToLower W
                  (request (searchText s) (dataFolder s) (uiWrites s)) in
  let banner := ("Searching: '" ++ searchText s ++ "' ...")%string in
  let shown := match sent (final o) with
               | [] => banner
               | _ :: _ => resultLines (sent (final o))
               end in
  ProcessInput ToLower W s ui =
  (o,
   if closed (final o)
   then mkUI (shown ++ "Done!") "" false
             (match sent (final o) with [] => true | _ :: _ => false end)
   else mkUI shown (inputText ui) (inputDisabled ui)
             (match sent (final o) with [] => true | _ :: _ => false end)).
Proof. exact (ProcessInput_shows s ui). Qed.

(** After Enter in the input field: when the folder cannot be listed the
    list shows the banner for ever and the input field stays disabled; when
    it can be listed and the search returns, the list ends in ["Done!"] and
    the input field is empty and enabled again. *)
Theorem inputDone_field_enabled_again (s : State) (ui : UI) :
  let banner := ("Searching: '" ++ searchText s ++ "' ...")%string in
  match os_ReadDir W (dataFolder s), inputDone ToLower W s ui with
  | None, (o, ui') =>
      o = Ok tt (final o) /\
      ui' = mkUI banner (inputText ui) true true
  | Some _, (Ok _ _, ui') =>
      inputDisabled ui' = false /\ inputText ui' = ""%string /\
      exists shown, resultList ui' = (shown ++ "Done!")%string
  | Some _, (Panic _ _, ui') => inputDisabled ui' = true
  end.
Proof.
  cbv zeta. unfold inputDone. rewrite ProcessInput_shows.
  cbn [inputText inputDisabled].
  assert (H := Search_ends ToLower W
                 (request (searchText s) (dataFolder s) (uiWrites s))
                 eq_refl).
  cbn [dataFolder request sent] in H.
  destruct (Search ToLower W _) as [[] s'|e s']; cbn [final] in *.
  - destruct H as [[Hsent [Hc Hdir]]|[Hc Hdir]].
    + rewrite Hdir, Hc, Hsent. split; reflexivity.
    + destruct (os_ReadDir W (dataFolder s)); [|now elim Hdir].
      rewrite Hc. cbn [inputDisabled inputText resultList].
      repeat split. eexists. reflexivity.
  - destruct H as [Hc [_ Hdir]].
    destruct (os_ReadDir W (dataFolder s)); [|now elim Hdir].
    now rewrite Hc.
Qed.

End Display.

(** ** What a search can send, under every interleaving *)

Section Emission.

Variable ToLower : string -> string.
Variable W : World.

Lemma Emits_ret {A} (a : A) (rs : list SearchResult) : Emits (ret a) rs.
Proof.
  intros s. exists []. split; [now rewrite app_nil_r | constructor].
Qed.

Lemma Emits_bind {A B} (m : M A) (k : A -> M B)
      (rs1 rs2 : list SearchResult) :
  Emits m rs1 -> (forall a, Emits (k a) rs2) ->
  Emits (bind m k) (rs1 ++ rs2).
Proof.
  intros Hm Hk s. unfold bind. destruct (Hm s) as [l1 [E1 S1]].
  destruct (m s) as [a s1|e s1]; cbn [final] in E1.
  - destruct (Hk a s1) as [l2 [E2 S2]]. exists (l1 ++ l2).
    split; [now rewrite E2, E1, app_assoc | now apply Subsequence_app].
  - exists l1. split; [exact E1|].
    rewrite <- (app_nil_r l1). apply Subsequence_app; [exact S1|constructor].
Qed.

Lemma Emits_ext {A} (m m' : M A) (rs : list SearchResult) :
  (forall s, m s = m' s) -> Emits m' rs -> Emits m rs.
Proof. intros H Hm s. rewrite H. apply Hm. Qed.

Lemma Emits_load_searchText : Emits load_searchText [].
Proof.
  intros s. exists []. split; [|constructor].
  unfold load_searchText. destruct (uiWrites s); cbn; now rewrite app_nil_r.
Qed.

Lemma Emits_send (r : SearchResult) : Emits (send r) [r].
Proof.
  intros s. unfold send. destruct (closed s).
  - exists []. split; [now rewrite app_nil_r | constructor].
  - exists [r]. split; [reflexivity|].
    apply Subsequence_keep. constructor.
Qed.

Lemma Emits_close : Emits close [].
Proof.
  intros s. exists []. split; [|constructor].
  unfold close. destruct (closed s); cbn; now rewrite app_nil_r.
Qed.

Lemma bind_liftExc_Return {A B} (a : A) (k : A -> M B) (s : State) :
  bind (liftExc (Return a)) k s = k a s.
Proof. reflexivity. Qed.

(** [processNode] sends the record it extracted, once, or nothing. *)
Lemma Emits_processNode (doc : Node) :
  Emits (processNode ToLower doc)
        (match extractResult ToLower doc with
         | Return r => [r]
         | Raise _ => []
         end).
Proof.
  unfold processNode.
  destruct (extractResult ToLower doc) as [r|e].
  - eapply Emits_ext; [intros s; apply bind_liftExc_Return|]. cbv beta.
    do 3 (apply (Emits_bind _ _ [] [r]); [apply Emits_load_searchText|];
          intros ?;
          match goal with
          | |- context [if ?b then _ else _] =>
              destruct b; [apply Emits_send|]
          end).
    apply Emits_ret.
  - intros s. exists []. split; [now rewrite app_nil_r | constructor].
Qed.

Lemma Emits_embeds (embeds : list Node) :
  Emits (forM_ (processNode ToLower) embeds)
        (fst (extractAll ToLower embeds)).
Proof.
  induction embeds as [|embed rest IH]; cbn [forM_ extractAll].
  - apply Emits_ret.
  - assert (H := Emits_processNode embed).
    destruct (extractResult ToLower embed) as [r|e] eqn:E.
    + destruct (extractAll ToLower rest) as [rs stop]. cbn [fst] in *.
      change (r :: rs) with ([r] ++ rs).
      apply Emits_bind; [exact H | intros _; exact IH].
    + cbn [fst]. intros s. unfold bind, processNode, liftExc.
      rewrite E. cbn [bind]. exists [].
      split; [cbn; now rewrite app_nil_r | constructor].
Qed.

(** Whatever is written to [searchText] while the scan runs, [Search] only
    adds to the channel records extracted from the embed roots of the listed
    documents, in document order and at most one per embed root; when the
    folder cannot be listed it sends nothing. *)
Theorem Search_sends_extracted_records_only (s : State) :
  exists l,
    sent (final (Search ToLower W s)) = sent s ++ l /\
    Subsequence l
      (match os_ReadDir W (dataFolder s) with
       | Some files =>
           fst (extractAll ToLower
                           (embedsOf (documents W (dataFolder s) files)))
       | None => []
       end).
Proof.
  destruct (os_ReadDir W (dataFolder s)) as [files|] eqn:Hdir.
  - assert (H : Emits
                  (bind load_searchText
                     (fun _ =>
                        bind (forM_ (processAllItems ToLower)
                                    (documents W (dataFolder s) files))
                             (fun _ => close)))
                  ([] ++ (fst (extractAll ToLower
                                (embedsOf (documents W (dataFolder s) files)))
                          ++ []))).
    { apply Emits_bind; [apply Emits_load_searchText|].
      intros _. apply Emits_bind; [|intros _; apply Emits_close].
      eapply Emits_ext; [apply documents_run | apply Emits_embeds]. }
    rewrite (Search_listed ToLower W s files Hdir).
    destruct (H s) as [l [E S]]. exists l. split; [exact E|].
    now rewrite app_nil_r in S.
  - exists []. split; [|constructor]. rewrite app_nil_r.
    unfold Search.
    destruct (load_searchText s) as [copy s1|e s1] eqn:Hload.
    2:{ unfold load_searchText in Hload. destruct (uiWrites s); discriminate. }
    assert (H1 : dataFolder s1 = dataFolder s /\ sent s1 = sent s).
    { unfold load_searchText in Hload.
      destruct (uiWrites s); injection Hload as _ <-; auto. }
    destruct H1 as [Hfolder Hsent].
    rewrite (bind_Ok _ _ _ _ _ Hload).
    rewrite (bind_Ok load_dataFolder _ s1 s1 (dataFolder s1) eq_refl).
    now rewrite Hfolder, Hdir.
Qed.

End Emission.
